(** * Xception graph assembly (diagtomodel/xception/xception.py)

    A shallow embedding of the functions that assemble the Xception network
    out of Keras layers, and the properties of the assembled graph.

    The Keras layers themselves are not part of the repository.  A layer is
    recorded as a value of [Layer] carrying the keyword arguments the source
    passes; calling a layer on tensors appends one node to the construction
    log and returns a fresh tensor handle.  What the constructor and the call
    of a layer do is a parameter of the development ([Primitives]).  An
    [Engine] stands for the primitives whose calls follow the shape rule the
    specification gives, and leaves open whether a constructor raises on its
    arguments. *)

From Stdlib Require Import ZArith List String Bool Lia Arith Morphisms Setoid.
Import ListNotations.
Open Scope string_scope.
Open Scope list_scope.
Open Scope Z_scope.

Set Implicit Arguments.

(** ** Data model *)

(** A static shape: one entry per axis, [None] for an unbound axis (the batch
    axis of a placeholder). *)
Definition Shape := list (option Z).

(** A tensor handle: the position of the node that produced it in the
    construction log, and its static shape. *)
Record Tensor := mkTensor { tid : nat; shape : Shape }.

(** The layers the module imports from [tensorflow.keras.layers], each with
    the keyword arguments the source passes to it. *)
Inductive Layer :=
| Input (shape : list Z)
| Activation (activation : string)
| Conv2D (filters : Z) (kernel_size strides : Z * Z) (padding : string) (use_bias : bool)
| SeparableConv2D (filters : Z) (kernel_size strides : Z * Z) (padding : string) (use_bias : bool)
| BatchNormalization
| MaxPool2D (pool_size strides : Z * Z) (padding : string)
| Add
| GlobalAveragePooling2D
| Dense (units : Z).

(** One call of a layer on its input tensors. *)
Record Node := mkNode { node_layer : Layer; node_inputs : list Tensor; node_output : Tensor }.

(** The construction log: every node built so far, oldest first. *)
Definition Graph := list Node.

(** [tensorflow.keras.models.Model(inputs=..., outputs=..., name=...)]. *)
Record Model := mkModel { inputs : Tensor; outputs : Tensor; name : string }.

(** What a build can raise.  [ValueError] is the exception raised by the
    module's own code; the two others come from a layer primitive: its
    constructor refusing its arguments, or its call refusing its inputs. *)
Inductive Error :=
| ValueError (msg : string)
| LayerError (l : Layer) (msg : string)
| ShapeError (l : Layer) (input_shapes : list Shape).

(** ** Decidable equality on the data *)

Definition dim_eqb (a b : option Z) : bool :=
  match a, b with
  | None, None => true
  | Some x, Some y => Z.eqb x y
  | _, _ => false
  end.

Fixpoint shape_eqb (s t : Shape) : bool :=
  match s, t with
  | [], [] => true
  | a :: s', b :: t' => dim_eqb a b && shape_eqb s' t'
  | _, _ => false
  end.

Definition is_add (l : Layer) : bool :=
  match l with Add => true | _ => false end.

Definition is_conv2d (l : Layer) : bool :=
  match l with Conv2D _ _ _ _ _ => true | _ => false end.

Definition is_separable_conv2d (l : Layer) : bool :=
  match l with SeparableConv2D _ _ _ _ _ => true | _ => false end.

Definition is_batch_norm (l : Layer) : bool :=
  match l with BatchNormalization => true | _ => false end.

Definition count_layers (p : Layer -> bool) (ls : list Layer) : nat :=
  List.length (filter p ls).

(** ** Output shapes of the layer primitives *)

(** Ceiling of [d / s]. *)
Definition ceil_div (d s : Z) : Z := - ((- d) / s).

(** Modelled from the spec: the spatial size under "same" padding, which the
    specification gives as [ceil(dim/stride)]; an unbound axis stays unbound. *)
Definition same_dim (d : option Z) (stride : Z) : option Z :=
  option_map (fun n => ceil_div n stride) d.

(** Modelled from the spec: the output shape of each layer primitive, which
    the source takes from Keras.  A convolution or pooling with "same" padding
    maps [[b; h; w; c]] to [[b; ceil(h/sh); ceil(w/sw); c']] with [c'] the
    filter count (the channel count is kept by pooling); normalization and
    activation keep the shape; an addition needs its operands to have
    identical shapes; global average pooling drops the two spatial axes; a
    dense layer replaces the last axis by its unit count.  [None] when the
    shape is not computable from these rules. *)
Definition infer_shape (l : Layer) (ins : list Shape) : option Shape :=
  match l, ins with
  | Input s, [] => Some (None :: map Some s)
  | Activation _, [s] => Some s
  | BatchNormalization, [s] => Some s
  | Conv2D f _ st pad _, [[b; h; w; _]]
  | SeparableConv2D f _ st pad _, [[b; h; w; _]] =>
      if String.eqb pad "same"
      then Some [b; same_dim h (fst st); same_dim w (snd st); Some f]
      else None
  | MaxPool2D _ st pad, [[b; h; w; c]] =>
      if String.eqb pad "same"
      then Some [b; same_dim h (fst st); same_dim w (snd st); c]
      else None
  | Add, [s; t] => if shape_eqb s t then Some s else None
  | GlobalAveragePooling2D, [[b; _; _; c]] => Some [b; c]
  | Dense u, [[b; _]] => Some [b; Some u]
  | _, _ => None
  end.

(** ** The engine and the build monad *)

(** The part of Keras the module relies on and does not contain: what a
    layer constructor does with its arguments.  [layer_init l = Some msg]
    when constructing [l] raises with message [msg]. *)
Class Engine := { layer_init : Layer -> option string }.

(** The layer primitives at large.  Constructing [l] when the log is [g]
    raises with message [msg] when [prim_init g l = Some msg]; calling the
    constructed layer on [ins] raises when [prim_call g l ins = None] and
    otherwise returns a tensor of the shape given.  Both may depend on
    everything built so far. *)
Class Primitives := {
  prim_init : Graph -> Layer -> option string;
  prim_call : Graph -> Layer -> list Tensor -> option Shape
}.

(** The primitives of an engine: the constructors of the engine, and calls
    that follow the shape rule of the specification. *)
#[global] Instance of_engine (E : Engine) : Primitives :=
  {| prim_init := fun _ l => layer_init l;
     prim_call := fun _ l ins => infer_shape l (map shape ins) |}.

Coercion of_engine : Engine >-> Primitives.

(** A build step reads and extends the construction log and may raise; a
    raise keeps the nodes built before it. *)
Definition Build (A : Type) : Type := Graph -> (Error + A) * Graph.

Definition ret {A} (a : A) : Build A := fun g => (inr a, g).

Definition raise {A} (e : Error) : Build A := fun g => (inl e, g).

Definition bind {A B} (m : Build A) (k : A -> Build B) : Build B :=
  fun g =>
    match m g with
    | (inl e, g') => (inl e, g')
    | (inr a, g') => k a g'
    end.

Notation "x <- m ;; k" := (bind m (fun x => k))
  (at level 61, m at next level, right associativity).

Definition run {A} (m : Build A) (g : Graph) : (Error + A) * Graph := m g.

(** A Python [for x in xs: s = body(x, s)] loop whose body rebinds one
    variable. *)
Fixpoint for_each {A S} (xs : list A) (body : A -> S -> Build S) (s : S) : Build S :=
  match xs with
  | [] => ret s
  | x :: xs' => s' <- body x s ;; for_each xs' body s'
  end.

(** Python's [range(n)]. *)
Definition range (n : nat) : list Z := map Z.of_nat (seq 0 n).

(** A keyword argument with a default value: [None] when the caller omits it. *)
Definition kwarg {A} (default : A) (arg : option A) : A :=
  match arg with
  | Some a => a
  | None => default
  end.

(** Python's [x in xs] on strings. *)
Definition str_in (s : string) (xs : list string) : bool :=
  existsb (String.eqb s) xs.

Section Builder.

Context {E : Primitives}.

(** Constructing a layer and calling it on [ins], as in
    [Conv2D(filters=..., ...)(conv_inputs)] or [Add()([res, entry_outputs])].  The
    constructor may raise; the call may raise; otherwise one node is appended
    and its output handle returned. *)
Definition apply_layer (l : Layer) (ins : list Tensor) : Build Tensor :=
  fun g =>
    match prim_init g l with
    | Some msg => (inl (LayerError l msg), g)
    | None =>
        match prim_call g l ins with
        | None => (inl (ShapeError l (map shape ins)), g)
        | Some s =>
            let t := mkTensor (List.length g) s in
            (inr t, g ++ [mkNode l ins t])
        end
    end.

(** ** The source functions *)

(** [convolutional_unit], lines 15-49. *)
Definition convolutional_unit (conv_inputs : Tensor) (num_filters : Z) (kernel_size : Z * Z)
    (strides : option (Z * Z)) (pre_activation post_activation : option bool)
    (conv_layer : option string) : Build Tensor :=
  let strides := kwarg (1, 1) strides in
  let pre_activation := kwarg false pre_activation in
  let post_activation := kwarg true post_activation in
  let conv_layer := kwarg "Conv2D" conv_layer in
  if negb (str_in conv_layer ["Conv2D"; "SeparableConv2D"])
  then raise (ValueError
                (String.append "conv_layer must be either Conv2D or SeparableConv2D. Found "
                               conv_layer))
  else
    conv_inputs <- (if pre_activation
                    then apply_layer (Activation "relu") [conv_inputs]
                    else ret conv_inputs) ;;
    conv_outputs <- (if String.eqb conv_layer "Conv2D"
                     then apply_layer (Conv2D num_filters kernel_size strides "same" false)
                                      [conv_inputs]
                     else if String.eqb conv_layer "SeparableConv2D"
                     then apply_layer (SeparableConv2D num_filters kernel_size strides "same" false)
                                      [conv_inputs]
                     else ret conv_inputs) ;;
    conv_outputs <- apply_layer BatchNormalization [conv_outputs] ;;
    if post_activation
    then apply_layer (Activation "relu") [conv_outputs]
    else ret conv_outputs.

(** [separable_convolutional_unit], lines 52-65. *)
Definition separable_convolutional_unit (sep_conv_inputs : Tensor) (num_filters : Z)
    (pre_activation post_activation : option bool) : Build Tensor :=
  let pre_activation := kwarg true pre_activation in
  let post_activation := kwarg false post_activation in
  convolutional_unit sep_conv_inputs num_filters (3, 3) None
                     (Some pre_activation) (Some post_activation) (Some "SeparableConv2D").

(** [entry_flow], lines 68-86. *)
Definition entry_flow (entry_inputs : Tensor) : Build Tensor :=
  entry_outputs <- convolutional_unit entry_inputs 32 (3, 3) (Some (2, 2)) None None None ;;
  entry_outputs <- convolutional_unit entry_outputs 64 (3, 3) None None None None ;;
  for_each [128; 256; 728]
    (fun num_filters entry_outputs =>
       res <- convolutional_unit entry_outputs num_filters (1, 1) (Some (2, 2))
                                 None (Some false) None ;;
       entry_outputs <- for_each (range 2)
                          (fun _ entry_outputs =>
                             separable_convolutional_unit entry_outputs num_filters None None)
                          entry_outputs ;;
       entry_outputs <- apply_layer (MaxPool2D (3, 3) (2, 2) "same") [entry_outputs] ;;
       apply_layer Add [res; entry_outputs])
    entry_outputs.

(** [middle_flow], lines 89-104. *)
Definition middle_flow (middle_inputs : Tensor) : Build Tensor :=
  let middle_outputs := middle_inputs in
  for_each (range 8)
    (fun _ middle_outputs =>
       let res := middle_outputs in
       middle_outputs <- for_each (range 3)
                           (fun _ middle_outputs =>
                              separable_convolutional_unit middle_outputs 728 None None)
                           middle_outputs ;;
       apply_layer Add [res; middle_outputs])
    middle_outputs.

(** [exit_flow], lines 107-137. *)
Definition exit_flow (exit_inputs : Tensor) : Build Tensor :=
  res <- convolutional_unit exit_inputs 1024 (1, 1) (Some (2, 2)) None (Some false) None ;;
  let exit_outputs := exit_inputs in
  exit_outputs <- for_each [728; 1024]
                    (fun num_filters exit_outputs =>
                       separable_convolutional_unit exit_outputs num_filters None None)
                    exit_outputs ;;
  exit_outputs <- apply_layer (MaxPool2D (3, 3) (2, 2) "same") [exit_outputs] ;;
  exit_outputs <- apply_layer Add [res; exit_outputs] ;;
  exit_outputs <- for_each [1536; 2048]
                    (fun num_filters exit_outputs =>
                       separable_convolutional_unit exit_outputs num_filters
                                                    (Some false) (Some true))
                    exit_outputs ;;
  exit_outputs <- apply_layer GlobalAveragePooling2D [exit_outputs] ;;
  exit_outputs <- apply_layer (Dense 2048) [exit_outputs] ;;
  exit_outputs <- apply_layer (Activation "relu") [exit_outputs] ;;
  exit_outputs <- apply_layer (Dense 1000) [exit_outputs] ;;
  apply_layer (Activation "softmax") [exit_outputs].

(** The module-level statements, lines 140-149, which build [model]. *)
Definition model : Build Model :=
  model_inputs <- apply_layer (Input [299; 299; 3]) [] ;;
  intermediate_outputs <- entry_flow model_inputs ;;
  intermediate_outputs <- middle_flow intermediate_outputs ;;
  model_outputs <- exit_flow intermediate_outputs ;;
  ret (mkModel model_inputs model_outputs "Xception").

End Builder.

(** ** Which layers every engine is expected to take *)

Definition positive_pair (p : Z * Z) : bool := (1 <=? fst p) && (1 <=? snd p).

(** The parameterizations the specification calls valid: a filter or unit
    count of at least one, positive kernel, pool and stride pairs, "same"
    padding, a positive placeholder shape, and one of the two activations the
    network uses. *)
Definition valid_layer (l : Layer) : bool :=
  match l with
  | Input s => forallb (fun d => 1 <=? d) s
  | Activation a => str_in a ["relu"; "softmax"]
  | Conv2D f k st pad _
  | SeparableConv2D f k st pad _ =>
      (1 <=? f) && positive_pair k && positive_pair st && String.eqb pad "same"
  | MaxPool2D p st pad => positive_pair p && positive_pair st && String.eqb pad "same"
  | Dense u => 1 <=? u
  | BatchNormalization | Add | GlobalAveragePooling2D => true
  end.

(** An engine that constructs every valid layer (it may or may not refuse
    the others). *)
Class AcceptsValid (E : Engine) : Prop :=
  accepts_valid : forall l, valid_layer l = true -> layer_init l = None.


(** The engine whose constructors check nothing. *)
Definition permissive : Engine := {| layer_init := fun _ => None |}.

(** The engine whose constructors refuse exactly the invalid layers. *)
Definition strict : Engine :=
  {| layer_init := fun l => if valid_layer l then None else Some "invalid argument" |}.

(** Primitives whose addition broadcasts: constructors that check nothing
    and calls that follow the shape rule, except that the call of [Add] takes
    two operands of any shapes and returns the shape of the second. *)
Definition broadcasting : Primitives :=
  {| prim_init := fun _ _ => None;
     prim_call := fun _ l ins =>
       match l, ins with
       | Add, [_; t] => Some (shape t)
       | _, _ => infer_shape l (map shape ins)
       end |}.

(** Primitives that depend on what was built before: constructors that check
    nothing and calls that follow the shape rule, except that the call of a
    normalization raises once the log holds a normalization. *)
Definition one_normalization : Primitives :=
  {| prim_init := fun _ _ => None;
     prim_call := fun g l ins =>
       if is_batch_norm l && existsb (fun nd => is_batch_norm (node_layer nd)) g
       then None
       else infer_shape l (map shape ins) |}.

(** ** Declarative description of the graph *)

(** The strings [conv_layer] may take. *)
Definition supported : list string := ["Conv2D"; "SeparableConv2D"].

(** The two convolution variants of the specification and the strings the
    source uses for them. *)
Inductive Variant := standard | separable.

Definition variant_name (v : Variant) : string :=
  match v with
  | standard => "Conv2D"
  | separable => "SeparableConv2D"
  end.

(** The convolution layer of a unit: "same" padding, no bias. *)
Definition conv_of (v : Variant) (filters : Z) (kernel_size strides : Z * Z) : Layer :=
  match v with
  | standard => Conv2D filters kernel_size strides "same" false
  | separable => SeparableConv2D filters kernel_size strides "same" false
  end.

Definition variant_of (conv_layer : string) : Variant :=
  if String.eqb conv_layer "Conv2D" then standard else separable.

Definition relu_if (b : bool) : list Layer :=
  if b then [Activation "relu"] else [].

(** The pipeline of a unit as the specification words it: relu if
    [pre_activation], the convolution, batch normalization, relu if
    [post_activation]. *)
Definition unit_layers (pre_activation : bool) (conv : Layer) (post_activation : bool)
  : list Layer :=
  relu_if pre_activation ++ [conv] ++ [BatchNormalization] ++ relu_if post_activation.

(** One step of a flow, at the granularity of the specification. *)
Inductive Op :=
| ConvUnit (filters : Z) (kernel_size strides : Z * Z)
           (pre_activation post_activation : bool) (variant : Variant)
| SepConvUnit (filters : Z) (pre_activation post_activation : bool)
| Prim (l : Layer).

Definition op_layers (o : Op) : list Layer :=
  match o with
  | ConvUnit f k st pre post v => unit_layers pre (conv_of v f k st) post
  | SepConvUnit f pre post => unit_layers pre (conv_of separable f (3, 3) (1, 1)) post
  | Prim l => [l]
  end.

Definition ops_layers (os : list Op) : list Layer := flat_map op_layers os.

(** A stage is a straight run of steps, or a residual block: a shortcut
    branch and a main branch, both starting from the block input, merged by
    an element-wise addition of (shortcut, main). *)
Inductive Stage :=
| Straight (ops : list Op)
| Residual (shortcut main : list Op).

Definition Plan := list Stage.

Definition stage_ops (s : Stage) : list Op :=
  match s with
  | Straight os => os
  | Residual sc mn => sc ++ mn
  end.

(** The layers of a stage in construction order. *)
Definition stage_layers (s : Stage) : list Layer :=
  match s with
  | Straight os => ops_layers os
  | Residual sc mn => ops_layers sc ++ ops_layers mn ++ [Add]
  end.

Definition plan_layers (p : Plan) : list Layer := flat_map stage_layers p.

Definition plan_ops (p : Plan) : list Op := flat_map stage_ops p.

(** The nodes of a linear chain of layers built from position [n] on, each
    layer consuming the output of the one before it, the first one [x]. *)
Fixpoint chain_nodes (n : nat) (x : Tensor) (ls : list Layer) : option (list Node * Tensor) :=
  match ls with
  | [] => Some ([], x)
  | l :: ls' =>
      match infer_shape l [shape x] with
      | None => None
      | Some s =>
          let t := mkTensor n s in
          match chain_nodes (S n) t ls' with
          | None => None
          | Some (ns, out) => Some (mkNode l [x] t :: ns, out)
          end
      end
  end.

(** The nodes of a stage built from position [n] on with block input [x]:
    shortcut branch first, then main branch, then the addition. *)
Definition stage_nodes (n : nat) (x : Tensor) (s : Stage) : option (list Node * Tensor) :=
  match s with
  | Straight os => chain_nodes n x (ops_layers os)
  | Residual sc mn =>
      match chain_nodes n x (ops_layers sc) with
      | None => None
      | Some (ns1, res) =>
          match chain_nodes (List.length ns1 + n) x (ops_layers mn) with
          | None => None
          | Some (ns2, y) =>
              match infer_shape Add [shape res; shape y] with
              | None => None
              | Some s =>
                  let t := mkTensor (List.length ns2 + (List.length ns1 + n)) s in
                  Some (ns1 ++ ns2 ++ [mkNode Add [res; y] t], t)
              end
          end
      end
  end.

Fixpoint plan_nodes (n : nat) (x : Tensor) (p : Plan) : option (list Node * Tensor) :=
  match p with
  | [] => Some ([], x)
  | s :: p' =>
      match stage_nodes n x s with
      | None => None
      | Some (ns, y) =>
          match plan_nodes (List.length ns + n) y p' with
          | None => None
          | Some (ns', out) => Some (ns ++ ns', out)
          end
      end
  end.

(** The shapes alone: the output shape of a chain, from the shape of the
    tensor it starts from. *)
Fixpoint chain_shape (s : Shape) (ls : list Layer) : option Shape :=
  match ls with
  | [] => Some s
  | l :: ls' =>
      match infer_shape l [s] with
      | None => None
      | Some s' => chain_shape s' ls'
      end
  end.

(** The plans of the three flows, as the specification lists them. *)
Definition entry_block (filters : Z) : Stage :=
  Residual [ConvUnit filters (1, 1) (2, 2) false false standard]
           [SepConvUnit filters true false; SepConvUnit filters true false;
            Prim (MaxPool2D (3, 3) (2, 2) "same")].

Definition entry_plan : Plan :=
  Straight [ConvUnit 32 (3, 3) (2, 2) false true standard;
            ConvUnit 64 (3, 3) (1, 1) false true standard]
  :: map entry_block [128; 256; 728].

Definition middle_block : Stage :=
  Residual [] [SepConvUnit 728 true false; SepConvUnit 728 true false;
               SepConvUnit 728 true false].

Definition middle_plan : Plan := repeat middle_block 8.

Definition exit_plan : Plan :=
  [Residual [ConvUnit 1024 (1, 1) (2, 2) false false standard]
            [SepConvUnit 728 true false; SepConvUnit 1024 true false;
             Prim (MaxPool2D (3, 3) (2, 2) "same")];
   Straight [SepConvUnit 1536 false true; SepConvUnit 2048 false true;
             Prim GlobalAveragePooling2D;
             Prim (Dense 2048); Prim (Activation "relu");
             Prim (Dense 1000); Prim (Activation "softmax")]].

(** The whole network after the placeholder: entry, middle, exit. *)
Definition network_plan : Plan := entry_plan ++ middle_plan ++ exit_plan.

(** Renaming of handles: every position moved up by [k]. *)
Definition shift_tensor (k : nat) (t : Tensor) : Tensor :=
  mkTensor (tid t + k) (shape t).

Definition shift_node (k : nat) (nd : Node) : Node :=
  mkNode (node_layer nd) (map (shift_tensor k) (node_inputs nd))
         (shift_tensor k (node_output nd)).

Definition shift_model (k : nat) (m : Model) : Model :=
  mkModel (shift_tensor k (inputs m)) (shift_tensor k (outputs m)) (name m).

Definition shift_result (k : nat) (r : list Node * Tensor) : list Node * Tensor :=
  (map (shift_node k) (fst r), shift_tensor k (snd r)).

(** The reference graph: the placeholder followed by the three flows, as
    built on an empty construction log. *)
Definition xception_graph : option (Model * Graph) :=
  match infer_shape (Input [299; 299; 3]) [] with
  | None => None
  | Some s =>
      let x := mkTensor 0 s in
      match plan_nodes 1 x network_plan with
      | None => None
      | Some (ns, out) => Some (mkModel x out "Xception", mkNode (Input [299; 299; 3]) [] x :: ns)
      end
  end.

(** The first operand of a node, [d] when it has none. *)
Definition first_input (d : Tensor) (nd : Node) : Tensor := hd d (node_inputs nd).

Definition add_nodes (ns : list Node) : list Node :=
  filter (fun nd => is_add (node_layer nd)) ns.

(** The separable units called with the overridden flags (not pre-activated,
    post-activated). *)
Definition overridden (o : Op) : bool :=
  match o with
  | SepConvUnit _ false true => true
  | _ => false
  end.

Definition is_sep_unit (o : Op) : bool :=
  match o with
  | SepConvUnit _ _ _ => true
  | _ => false
  end.

(** ** Summaries

    A summary lists the nodes of a flow the way [model.summary()] prints
    them: one row per node, giving the layer, what it is connected to and its
    output shape. *)

(** What a row is connected to: the tensor the flow starts from, or the
    output of row [k]. *)
Inductive Ref :=
| FlowInput
| RowOutput (k : nat).

Definition Row : Type := Layer * list Ref * Shape.

Definition row (l : Layer) (connected_to : list Ref) (s : Shape) : Row :=
  (l, connected_to, s).

Definition row_layer (r : Row) : Layer := fst (fst r).
Definition row_inputs (r : Row) : list Ref := snd (fst r).
Definition row_shape (r : Row) : Shape := snd r.

Definition operand (n : nat) (x : Tensor) (rows : list Row) (r : Ref) : Tensor :=
  match r with
  | FlowInput => x
  | RowOutput k => mkTensor (k + n) (nth k (map row_shape rows) [])
  end.

(** The nodes a summary stands for when row 0 is built at position [n] of
    the log and the flow starts from [x]. *)
Definition realize (n : nat) (x : Tensor) (rows : list Row) : list Node :=
  map (fun kr : nat * Row =>
         mkNode (row_layer (snd kr))
                (map (operand n x rows) (row_inputs (snd kr)))
                (mkTensor (fst kr + n) (row_shape (snd kr))))
      (combine (seq 0 (List.length rows)) rows).

Definition entry_summary (b h w : option Z) : list Row :=
  let h1 := same_dim h 2 in let w1 := same_dim w 2 in
  let h2 := same_dim h1 2 in let w2 := same_dim w1 2 in
  let h3 := same_dim h2 2 in let w3 := same_dim w2 2 in
  let h4 := same_dim h3 2 in let w4 := same_dim w3 2 in
  [row (Conv2D 32 (3, 3) (2, 2) "same" false) [FlowInput] [b; h1; w1; Some 32];
   row BatchNormalization [RowOutput 0] [b; h1; w1; Some 32];
   row (Activation "relu") [RowOutput 1] [b; h1; w1; Some 32];
   row (Conv2D 64 (3, 3) (1, 1) "same" false) [RowOutput 2] [b; h1; w1; Some 64];
   row BatchNormalization [RowOutput 3] [b; h1; w1; Some 64];
   row (Activation "relu") [RowOutput 4] [b; h1; w1; Some 64];
   row (Conv2D 128 (1, 1) (2, 2) "same" false) [RowOutput 5] [b; h2; w2; Some 128];
   row BatchNormalization [RowOutput 6] [b; h2; w2; Some 128];
   row (Activation "relu") [RowOutput 5] [b; h1; w1; Some 64];
   row (SeparableConv2D 128 (3, 3) (1, 1) "same" false) [RowOutput 8] [b; h1; w1; Some 128];
   row BatchNormalization [RowOutput 9] [b; h1; w1; Some 128];
   row (Activation "relu") [RowOutput 10] [b; h1; w1; Some 128];
   row (SeparableConv2D 128 (3, 3) (1, 1) "same" false) [RowOutput 11] [b; h1; w1; Some 128];
   row BatchNormalization [RowOutput 12] [b; h1; w1; Some 128];
   row (MaxPool2D (3, 3) (2, 2) "same") [RowOutput 13] [b; h2; w2; Some 128];
   row Add [RowOutput 7; RowOutput 14] [b; h2; w2; Some 128];
   row (Conv2D 256 (1, 1) (2, 2) "same" false) [RowOutput 15] [b; h3; w3; Some 256];
   row BatchNormalization [RowOutput 16] [b; h3; w3; Some 256];
   row (Activation "relu") [RowOutput 15] [b; h2; w2; Some 128];
   row (SeparableConv2D 256 (3, 3) (1, 1) "same" false) [RowOutput 18] [b; h2; w2; Some 256];
   row BatchNormalization [RowOutput 19] [b; h2; w2; Some 256];
   row (Activation "relu") [RowOutput 20] [b; h2; w2; Some 256];
   row (SeparableConv2D 256 (3, 3) (1, 1) "same" false) [RowOutput 21] [b; h2; w2; Some 256];
   row BatchNormalization [RowOutput 22] [b; h2; w2; Some 256];
   row (MaxPool2D (3, 3) (2, 2) "same") [RowOutput 23] [b; h3; w3; Some 256];
   row Add [RowOutput 17; RowOutput 24] [b; h3; w3; Some 256];
   row (Conv2D 728 (1, 1) (2, 2) "same" false) [RowOutput 25] [b; h4; w4; Some 728];
   row BatchNormalization [RowOutput 26] [b; h4; w4; Some 728];
   row (Activation "relu") [RowOutput 25] [b; h3; w3; Some 256];
   row (SeparableConv2D 728 (3, 3) (1, 1) "same" false) [RowOutput 28] [b; h3; w3; Some 728];
   row BatchNormalization [RowOutput 29] [b; h3; w3; Some 728];
   row (Activation "relu") [RowOutput 30] [b; h3; w3; Some 728];
   row (SeparableConv2D 728 (3, 3) (1, 1) "same" false) [RowOutput 31] [b; h3; w3; Some 728];
   row BatchNormalization [RowOutput 32] [b; h3; w3; Some 728];
   row (MaxPool2D (3, 3) (2, 2) "same") [RowOutput 33] [b; h4; w4; Some 728];
   row Add [RowOutput 27; RowOutput 34] [b; h4; w4; Some 728]].

(** One block of the middle flow: rows [10 k] to [10 k + 9].  The block input
    is the flow input for the first block and the sum of the block before
    otherwise; it feeds the main branch and is the first operand of the sum. *)
Definition middle_block_rows (s : Shape) (k : nat) : list Row :=
  let i := (10 * k)%nat in
  let block_input := match k with O => FlowInput | S _ => RowOutput (i - 1) end in
  let sep := SeparableConv2D 728 (3, 3) (1, 1) "same" false in
  [row (Activation "relu") [block_input] s;
   row sep [RowOutput i] s;
   row BatchNormalization [RowOutput (i + 1)] s;
   row (Activation "relu") [RowOutput (i + 2)] s;
   row sep [RowOutput (i + 3)] s;
   row BatchNormalization [RowOutput (i + 4)] s;
   row (Activation "relu") [RowOutput (i + 5)] s;
   row sep [RowOutput (i + 6)] s;
   row BatchNormalization [RowOutput (i + 7)] s;
   row Add [block_input; RowOutput (i + 8)] s].

Definition middle_summary (s : Shape) : list Row :=
  flat_map (middle_block_rows s) (seq 0 8).

Definition exit_summary (b h w : option Z) : list Row :=
  let h1 := same_dim h 2 in let w1 := same_dim w 2 in
  [row (Conv2D 1024 (1, 1) (2, 2) "same" false) [FlowInput] [b; h1; w1; Some 1024];
   row BatchNormalization [RowOutput 0] [b; h1; w1; Some 1024];
   row (Activation "relu") [FlowInput] [b; h; w; Some 728];
   row (SeparableConv2D 728 (3, 3) (1, 1) "same" false) [RowOutput 2] [b; h; w; Some 728];
   row BatchNormalization [RowOutput 3] [b; h; w; Some 728];
   row (Activation "relu") [RowOutput 4] [b; h; w; Some 728];
   row (SeparableConv2D 1024 (3, 3) (1, 1) "same" false) [RowOutput 5] [b; h; w; Some 1024];
   row BatchNormalization [RowOutput 6] [b; h; w; Some 1024];
   row (MaxPool2D (3, 3) (2, 2) "same") [RowOutput 7] [b; h1; w1; Some 1024];
   row Add [RowOutput 1; RowOutput 8] [b; h1; w1; Some 1024];
   row (SeparableConv2D 1536 (3, 3) (1, 1) "same" false) [RowOutput 9] [b; h1; w1; Some 1536];
   row BatchNormalization [RowOutput 10] [b; h1; w1; Some 1536];
   row (Activation "relu") [RowOutput 11] [b; h1; w1; Some 1536];
   row (SeparableConv2D 2048 (3, 3) (1, 1) "same" false) [RowOutput 12] [b; h1; w1; Some 2048];
   row BatchNormalization [RowOutput 13] [b; h1; w1; Some 2048];
   row (Activation "relu") [RowOutput 14] [b; h1; w1; Some 2048];
   row GlobalAveragePooling2D [RowOutput 15] [b; Some 2048];
   row (Dense 2048) [RowOutput 16] [b; Some 2048];
   row (Activation "relu") [RowOutput 17] [b; Some 2048];
   row (Dense 1000) [RowOutput 18] [b; Some 1000];
   row (Activation "softmax") [RowOutput 19] [b; Some 1000]].


(** Two build steps are equivalent when they agree on every construction log. *)
Definition build_eq {A} (m m' : Build A) : Prop := forall g, run m g = run m' g.

(** The layers the engine constructs without raising. *)
Definition accepted {E : Engine} (l : Layer) : Prop := layer_init l = None.

Section Plans.

Context {E : Primitives}.

(** Applying a list of layers one after the other. *)
Fixpoint sequential (ls : list Layer) (x : Tensor) : Build Tensor :=
  match ls with
  | [] => ret x
  | l :: ls' => y <- apply_layer l [x] ;; sequential ls' y
  end.

Definition build_stage (s : Stage) (x : Tensor) : Build Tensor :=
  match s with
  | Straight os => sequential (ops_layers os) x
  | Residual sc mn =>
      res <- sequential (ops_layers sc) x ;;
      y <- sequential (ops_layers mn) x ;;
      apply_layer Add [res; y]
  end.

Fixpoint build_plan (p : Plan) (x : Tensor) : Build Tensor :=
  match p with
  | [] => ret x
  | s :: p' => y <- build_stage s x ;; build_plan p' y
  end.

End Plans.

(** ** What a build leaves in the log, whatever the primitives do *)

(** The layer whose primitive raised, for the two errors a primitive raises. *)
Definition error_layer (e : Error) : option Layer :=
  match e with
  | ValueError _ => None
  | LayerError l _ => Some l
  | ShapeError l _ => Some l
  end.

(** The layers built against the layers [ls] that were to be built: all of
    them when the build returns; when it raises, those before the layer whose
    primitive raised, and nothing after it. *)
Definition outcome {A} (ls : list Layer) (r : Error + A) (ns : list Node) : Prop :=
  match r with
  | inr _ => map node_layer ns = ls
  | inl e => exists l rest, ls = map node_layer ns ++ l :: rest /\ error_layer e = Some l
  end.

(** [t] is the output of one of the first [i] nodes of [ns]. *)
Definition produced_before (ns : list Node) (i : nat) (t : Tensor) : Prop :=
  exists j nd, (j < i)%nat /\ nth_error ns j = Some nd /\ node_output nd = t.

(** The nodes [ns], appended from position [n] on, are wired forward: the
    handle of each is its position in the log, and each operand is a tensor
    allowed by [src] or the output of a node appended before. *)
Definition wired (n : nat) (src : Tensor -> Prop) (ns : list Node) : Prop :=
  forall i nd,
    nth_error ns i = Some nd ->
    tid (node_output nd) = (n + i)%nat /\
    Forall (fun t => src t \/ produced_before ns i t) (node_inputs nd).

(** The output of the last node of [ns], [x] when [ns] is empty. *)
Definition last_output (x : Tensor) (ns : list Node) : Tensor :=
  last (map node_output ns) x.

(** [t] is an operand of one of the nodes [ns]. *)
Definition feeds (ns : list Node) (t : Tensor) : Prop :=
  exists nd, In nd ns /\ In t (node_inputs nd).

(** [t] is an operand of a node of [ns] after position [i]. *)
Definition consumed_later (ns : list Node) (i : nat) (t : Tensor) : Prop :=
  exists j nd, (i < j)%nat /\ nth_error ns j = Some nd /\ In t (node_inputs nd).

(** No node of [ns] is left unused: the output of each is one of the results
    [final] or an operand of a node after it. *)
Definition all_used (ns : list Node) (final : Tensor -> Prop) : Prop :=
  forall i nd,
    nth_error ns i = Some nd ->
    final (node_output nd) \/ consumed_later ns i (node_output nd).

(** ** Laws of the build monad *)

Section MonadLaws.

Context {A B C : Type}.

Lemma build_eq_refl (m : Build A) : build_eq m m.
Proof. intro g; reflexivity. Qed.

Lemma build_eq_sym (m m' : Build A) : build_eq m m' -> build_eq m' m.
Proof. intros H g; symmetry; apply H. Qed.

Lemma build_eq_trans (m1 m2 m3 : Build A) :
  build_eq m1 m2 -> build_eq m2 m3 -> build_eq m1 m3.
Proof. intros H1 H2 g; rewrite (H1 g); apply H2. Qed.

Lemma bind_ret_l (a : A) (k : A -> Build B) : build_eq (bind (ret a) k) (k a).
Proof. intro g; reflexivity. Qed.

Lemma bind_ret_r (m : Build A) : build_eq (bind m (fun a => ret a)) m.
Proof.
  intro g; unfold run, bind, ret.
  destruct (m g) as [[e | a] g']; reflexivity.
Qed.

Lemma bind_assoc (m : Build A) (k : A -> Build B) (h : B -> Build C) :
  build_eq (bind (bind m k) h) (bind m (fun a => bind (k a) h)).
Proof.
  intro g; unfold run, bind.
  destruct (m g) as [[e | a] g']; reflexivity.
Qed.

Lemma bind_cong (m m' : Build A) (k k' : A -> Build B) :
  build_eq m m' -> (forall a, build_eq (k a) (k' a)) -> build_eq (bind m k) (bind m' k').
Proof.
  intros Hm Hk g; unfold build_eq, run, bind in *.
  rewrite (Hm g).
  destruct (m' g) as [[e | a] g']; [reflexivity | apply Hk].
Qed.

End MonadLaws.

#[global] Instance build_eq_equiv {A} : Equivalence (@build_eq A).
Proof.
  split.
  - exact (@build_eq_refl A).
  - exact (@build_eq_sym A).
  - exact (@build_eq_trans A).
Qed.

#[global] Instance bind_proper {A B} :
  Proper (@build_eq A ==> pointwise_relation A (@build_eq B) ==> @build_eq B) bind.
Proof. intros m m' Hm k k' Hk; apply bind_cong; assumption. Qed.

(** ** Chains of layers *)

Section Chains.

Context {E : Primitives}.

Lemma sequential_app (l1 l2 : list Layer) (x : Tensor) :
  build_eq (sequential (l1 ++ l2) x) (y <- sequential l1 x ;; sequential l2 y).
Proof.
  revert x; induction l1 as [| l l1 IH]; intro x; simpl.
  - symmetry; apply bind_ret_l.
  - setoid_rewrite bind_assoc. apply bind_cong; [reflexivity | exact IH].
Qed.

Lemma relu_if_spec (b : bool) (x : Tensor) :
  build_eq (if b then apply_layer (Activation "relu") [x] else ret x)
           (sequential (relu_if b) x).
Proof. destruct b; simpl; [symmetry; apply bind_ret_r | reflexivity]. Qed.

Lemma str_in_supported (cl : string) :
  str_in cl supported = true <-> In cl supported.
Proof.
  unfold str_in, supported; simpl.
  rewrite !orb_true_iff, !String.eqb_eq.
  intuition (subst; auto; try discriminate).
Qed.

(** The unit is the sequential application of its pipeline, for the two
    supported strings. *)
Lemma convolutional_unit_sequential (x : Tensor) (nf : Z) (ks : Z * Z)
    (st : option (Z * Z)) (pre post : option bool) (cl : option string) :
  In (kwarg "Conv2D" cl) supported ->
  build_eq (convolutional_unit x nf ks st pre post cl)
           (sequential (unit_layers (kwarg false pre)
                                    (conv_of (variant_of (kwarg "Conv2D" cl)) nf ks
                                             (kwarg (1, 1) st))
                                    (kwarg true post)) x).
Proof.
  intro Hin.
  unfold convolutional_unit, unit_layers.
  apply str_in_supported in Hin as Hb; unfold supported in Hb; rewrite Hb; simpl negb; cbv iota.
  rewrite sequential_app.
  apply bind_cong; [apply relu_if_spec | intro y].
  change (sequential ([?c] ++ [BatchNormalization] ++ ?r) y)
    with (z <- apply_layer c [y] ;; w <- apply_layer BatchNormalization [z] ;; sequential r w).
  apply bind_cong.
  - unfold variant_of.
    destruct Hin as [<- | [<- | []]]; reflexivity.
  - intro z. apply bind_cong; [reflexivity | intro w].
    apply relu_if_spec.
Qed.

Lemma separable_convolutional_unit_sequential (x : Tensor) (nf : Z) (pre post : option bool) :
  build_eq (separable_convolutional_unit x nf pre post)
           (sequential (op_layers (SepConvUnit nf (kwarg true pre) (kwarg false post))) x).
Proof.
  unfold separable_convolutional_unit.
  rewrite convolutional_unit_sequential by (simpl; auto).
  reflexivity.
Qed.

Lemma convolutional_unit_standard (x : Tensor) (nf : Z) (ks : Z * Z)
    (st : option (Z * Z)) (pre post : option bool) :
  build_eq (convolutional_unit x nf ks st pre post None)
           (sequential (op_layers (ConvUnit nf ks (kwarg (1, 1) st) (kwarg false pre)
                                            (kwarg true post) standard)) x).
Proof. rewrite convolutional_unit_sequential by (simpl; auto). reflexivity. Qed.

End Chains.

(** ** The flows follow their plans *)

Ltac monad_norm :=
  repeat (setoid_rewrite bind_assoc || setoid_rewrite bind_ret_l).

Ltac bind_chain :=
  repeat (apply bind_cong; [reflexivity | intro]);
  first [reflexivity | symmetry; apply bind_ret_r].

Section Flows.

Context {E : Primitives}.

Lemma build_plan_app (p q : Plan) (x : Tensor) :
  build_eq (build_plan (p ++ q) x) (y <- build_plan p x ;; build_plan q y).
Proof.
  revert x; induction p as [| s p IH]; intro x; simpl.
  - symmetry; apply bind_ret_l.
  - setoid_rewrite bind_assoc. apply bind_cong; [reflexivity | exact IH].
Qed.

Lemma for_each_plan {A} (f : A -> Stage) (body : A -> Tensor -> Build Tensor) (xs : list A) :
  (forall a x, build_eq (body a x) (build_stage (f a) x)) ->
  forall x, build_eq (for_each xs body x) (build_plan (map f xs) x).
Proof.
  intro H; induction xs as [| a xs IH]; intro x; simpl.
  - reflexivity.
  - apply bind_cong; [apply H | exact IH].
Qed.

Lemma for_each_repeat (s : Stage) (body : Z -> Tensor -> Build Tensor) (n : nat) :
  (forall a x, build_eq (body a x) (build_stage s x)) ->
  forall x, build_eq (for_each (range n) body x) (build_plan (repeat s n) x).
Proof.
  intros H x.
  rewrite (for_each_plan (fun _ => s) body (range n) H x).
  unfold range. rewrite map_map.
  replace (map (fun _ => s) (seq 0 n)) with (repeat s n); [reflexivity |].
  generalize 0%nat; induction n as [| n IH]; intro k; simpl; [| rewrite <- IH]; reflexivity.
Qed.

Lemma entry_block_spec (nf : Z) (x : Tensor) :
  build_eq
    (res <- convolutional_unit x nf (1, 1) (Some (2, 2)) None (Some false) None ;;
     entry_outputs <- for_each (range 2)
                        (fun _ entry_outputs =>
                           separable_convolutional_unit entry_outputs nf None None) x ;;
     entry_outputs <- apply_layer (MaxPool2D (3, 3) (2, 2) "same") [entry_outputs] ;;
     apply_layer Add [res; entry_outputs])
    (build_stage (entry_block nf) x).
Proof.
  apply bind_cong.
  - rewrite convolutional_unit_standard. reflexivity.
  - intro res. simpl for_each.
    setoid_rewrite separable_convolutional_unit_sequential.
    change (ops_layers [SepConvUnit nf true false; SepConvUnit nf true false;
                        Prim (MaxPool2D (3, 3) (2, 2) "same")])
      with (op_layers (SepConvUnit nf true false) ++ op_layers (SepConvUnit nf true false)
            ++ [MaxPool2D (3, 3) (2, 2) "same"]).
    rewrite !sequential_app.
    simpl sequential at 3.
    monad_norm. reflexivity.
Qed.

Lemma entry_flow_plan (x : Tensor) : build_eq (entry_flow x) (build_plan entry_plan x).
Proof.
  unfold entry_flow, entry_plan.
  change (build_plan (?s :: ?p) x) with (y <- build_stage s x ;; build_plan p y).
  change (build_stage (Straight [?a; ?b]) x)
    with (sequential (op_layers a ++ op_layers b ++ []) x).
  rewrite app_nil_r, sequential_app.
  setoid_rewrite (bind_assoc (sequential _ x)).
  apply bind_cong; [apply convolutional_unit_standard | intro y].
  apply bind_cong; [apply convolutional_unit_standard | intro z].
  apply for_each_plan. intros nf w. apply entry_block_spec.
Qed.

Lemma middle_block_spec (x : Tensor) :
  build_eq
    (middle_outputs <- for_each (range 3)
                         (fun _ middle_outputs =>
                            separable_convolutional_unit middle_outputs 728 None None) x ;;
     apply_layer Add [x; middle_outputs])
    (build_stage middle_block x).
Proof.
  simpl for_each.
  setoid_rewrite separable_convolutional_unit_sequential.
  unfold middle_block, build_stage.
  change (sequential (ops_layers []) x) with (ret x).
  change (ops_layers [?a; ?b; ?c]) with (op_layers a ++ op_layers b ++ op_layers c ++ []).
  rewrite app_nil_r.
  repeat setoid_rewrite sequential_app.
  monad_norm. reflexivity.
Qed.

Lemma middle_flow_plan (x : Tensor) : build_eq (middle_flow x) (build_plan middle_plan x).
Proof.
  unfold middle_flow, middle_plan.
  apply for_each_repeat. intros _ y. apply middle_block_spec.
Qed.

Lemma exit_flow_plan (x : Tensor) : build_eq (exit_flow x) (build_plan exit_plan x).
Proof.
  unfold exit_flow, exit_plan.
  simpl for_each.
  setoid_rewrite separable_convolutional_unit_sequential.
  setoid_rewrite convolutional_unit_standard.
  change (build_plan [?s; ?t] x)
    with (y <- build_stage s x ;; z <- build_stage t y ;; ret z).
  unfold build_stage.
  change (ops_layers [?a]) with (op_layers a ++ []).
  change (ops_layers [?a; ?b; Prim ?c]) with (op_layers a ++ op_layers b ++ [c]).
  change (ops_layers (?a :: ?b :: ?r)) with (op_layers a ++ op_layers b ++ ops_layers r).
  rewrite app_nil_r.
  repeat setoid_rewrite sequential_app.
  simpl ops_layers.
  monad_norm. bind_chain.
Qed.

End Flows.

(** ** What a successful build appends to the log *)

Lemma chain_nodes_layers (ls : list Layer) :
  forall n x ns out, chain_nodes n x ls = Some (ns, out) -> map node_layer ns = ls.
Proof.
  induction ls as [| l ls IH]; simpl; intros n x ns out H.
  - injection H as <- _; reflexivity.
  - destruct (infer_shape l [shape x]) as [s |]; [| discriminate].
    destruct (chain_nodes (S n) (mkTensor n s) ls) as [[ns' out'] |] eqn:Hc; [| discriminate].
    injection H as <- _; simpl; f_equal; eapply IH; eassumption.
Qed.

Lemma stage_nodes_layers (s : Stage) n x ns out :
  stage_nodes n x s = Some (ns, out) -> map node_layer ns = stage_layers s.
Proof.
  destruct s as [os | sc mn]; simpl.
  - apply chain_nodes_layers.
  - destruct (chain_nodes n x (ops_layers sc)) as [[ns1 res] |] eqn:H1; [| discriminate].
    destruct (chain_nodes (List.length ns1 + n) x (ops_layers mn)) as [[ns2 y] |] eqn:H2;
      [| discriminate].
    destruct (if shape_eqb (shape res) (shape y) then Some (shape res) else None) as [s |];
      [| discriminate].
    intro H; injection H as <- _.
    rewrite !map_app; simpl.
    rewrite (chain_nodes_layers _ _ _ H1), (chain_nodes_layers _ _ _ H2); reflexivity.
Qed.

Lemma plan_nodes_layers (p : Plan) :
  forall n x ns out, plan_nodes n x p = Some (ns, out) -> map node_layer ns = plan_layers p.
Proof.
  induction p as [| s p IH]; simpl; intros n x ns out H.
  - injection H as <- _; reflexivity.
  - destruct (stage_nodes n x s) as [[ns1 y] |] eqn:H1; [| discriminate].
    destruct (plan_nodes (List.length ns1 + n) y p) as [[ns2 out'] |] eqn:H2; [| discriminate].
    injection H as <- _.
    rewrite map_app, (stage_nodes_layers _ _ _ H1), (IH _ _ _ _ H2); reflexivity.
Qed.

Section Runs.

Context {E : Engine}.

Lemma apply_layer_run (l : Layer) (ins : list Tensor) (s : Shape) (g : Graph) :
  accepted l -> infer_shape l (map shape ins) = Some s ->
  run (apply_layer l ins) g =
  (inr (mkTensor (List.length g) s), g ++ [mkNode l ins (mkTensor (List.length g) s)]).
Proof.
  unfold run, apply_layer, accepted; cbn [of_engine prim_init prim_call].
  intros -> ->; reflexivity.
Qed.

Lemma apply_layer_inv (l : Layer) (ins : list Tensor) (g g' : Graph) (out : Tensor) :
  run (apply_layer l ins) g = (inr out, g') ->
  accepted l /\
  exists s, infer_shape l (map shape ins) = Some s /\
            out = mkTensor (List.length g) s /\ g' = g ++ [mkNode l ins out].
Proof.
  unfold run, apply_layer, accepted; cbn [of_engine prim_init prim_call].
  destruct (layer_init l); [discriminate |].
  destruct (infer_shape l (map shape ins)) as [s |]; [| discriminate].
  intro H; injection H as <- <-; eauto.
Qed.

Lemma apply_layer_fail (l : Layer) (ins : list Tensor) (g g' : Graph) (e : Error) :
  run (apply_layer l ins) g = (inl e, g') ->
  g' = g /\
  ((exists msg, layer_init l = Some msg /\ e = LayerError l msg) \/
   (infer_shape l (map shape ins) = None /\ e = ShapeError l (map shape ins))).
Proof.
  unfold run, apply_layer; cbn [of_engine prim_init prim_call].
  destruct (layer_init l) as [msg |].
  - intro H; injection H as <- <-; eauto.
  - destruct (infer_shape l (map shape ins)); [discriminate |].
    intro H; injection H as <- <-; auto.
Qed.

Lemma sequential_run (ls : list Layer) :
  Forall accepted ls ->
  forall x g ns out,
    chain_nodes (List.length g) x ls = Some (ns, out) ->
    run (sequential ls x) g = (inr out, g ++ ns).
Proof.
  induction 1 as [| l ls Hl _ IH]; simpl; intros x g ns out H.
  - injection H as <- <-; rewrite app_nil_r; reflexivity.
  - destruct (infer_shape l [shape x]) as [s |] eqn:Hs; [| discriminate].
    destruct (chain_nodes (S (List.length g)) (mkTensor (List.length g) s) ls)
      as [[ns' out'] |] eqn:Hc; [| discriminate].
    injection H as <- <-.
    unfold run, bind.
    rewrite (apply_layer_run [x] g Hl Hs : apply_layer l [x] g = _).
    replace (g ++ mkNode l [x] (mkTensor (List.length g) s) :: ns')
      with ((g ++ [mkNode l [x] (mkTensor (List.length g) s)]) ++ ns')
      by (rewrite <- app_assoc; reflexivity).
    apply IH.
    rewrite length_app; simpl.
    replace (List.length g + 1)%nat with (S (List.length g)) by lia.
    exact Hc.
Qed.

Lemma sequential_inv (ls : list Layer) :
  forall x g g' out,
    run (sequential ls x) g = (inr out, g') ->
    Forall accepted ls /\
    exists ns, g' = g ++ ns /\ chain_nodes (List.length g) x ls = Some (ns, out).
Proof.
  induction ls as [| l ls IH]; simpl; intros x g g' out H.
  - injection H as <- <-. split; [constructor |].
    exists []; rewrite app_nil_r; auto.
  - unfold run, bind in H.
    destruct (apply_layer l [x] g) as [[e | y] g1] eqn:Ha; [discriminate |].
    apply apply_layer_inv in Ha as (Hl & s & Hs & -> & ->).
    apply IH in H as (Hls & ns & -> & Hc).
    split; [constructor; assumption |].
    exists (mkNode l [x] (mkTensor (List.length g) s) :: ns).
    split; [rewrite <- app_assoc; reflexivity |].
    simpl in Hs; rewrite Hs.
    rewrite length_app in Hc; simpl in Hc.
    replace (List.length g + 1)%nat with (S (List.length g)) in Hc by lia.
    rewrite Hc; reflexivity.
Qed.

(** A failing chain fails at one of its layers, with that layer's error. *)
Lemma sequential_fail (ls : list Layer) :
  forall x g g' e,
    run (sequential ls x) g = (inl e, g') ->
    exists l, In l ls /\
      ((exists msg, layer_init l = Some msg /\ e = LayerError l msg) \/
       (exists ss, e = ShapeError l ss)).
Proof.
  induction ls as [| l ls IH]; simpl; intros x g g' e H.
  - discriminate.
  - unfold run, bind in H.
    destruct (apply_layer l [x] g) as [[e' | y] g1] eqn:Ha.
    + injection H as <- <-.
      apply apply_layer_fail in Ha as (_ & [(msg & Hm & ->) | (_ & ->)]);
        exists l; split; eauto.
    + apply IH in H as (l' & Hin & H). exists l'; auto.
Qed.

Lemma build_stage_run (s : Stage) x g ns out :
  Forall accepted (stage_layers s) ->
  stage_nodes (List.length g) x s = Some (ns, out) ->
  run (build_stage s x) g = (inr out, g ++ ns).
Proof.
  destruct s as [os | sc mn]; simpl; intros Hacc H.
  - apply sequential_run; assumption.
  - apply Forall_app in Hacc as (Hsc & Hacc); apply Forall_app in Hacc as (Hmn & Hadd).
    destruct (chain_nodes (List.length g) x (ops_layers sc)) as [[ns1 res] |] eqn:H1;
      [| discriminate].
    destruct (chain_nodes (List.length ns1 + List.length g) x (ops_layers mn))
      as [[ns2 y] |] eqn:H2; [| discriminate].
    destruct (if shape_eqb (shape res) (shape y) then Some (shape res) else None)
      as [sh |] eqn:Hsh; [| discriminate].
    injection H as <- <-.
    unfold run, bind.
    rewrite (sequential_run Hsc _ _ H1 : sequential _ x g = _).
    rewrite Nat.add_comm, <- length_app in H2.
    rewrite (sequential_run Hmn _ _ H2 : sequential _ x (g ++ ns1) = _).
    inversion Hadd as [| ? ? Ha _]; subst.
    rewrite (apply_layer_run [res; y] _ Ha Hsh : apply_layer Add [res; y] _ = _).
    rewrite !length_app, <- !app_assoc.
    replace (List.length g + List.length ns1 + List.length ns2)%nat
      with (List.length ns2 + (List.length ns1 + List.length g))%nat by lia.
    reflexivity.
Qed.

Lemma build_plan_run (p : Plan) :
  Forall accepted (plan_layers p) ->
  forall x g ns out,
    plan_nodes (List.length g) x p = Some (ns, out) ->
    run (build_plan p x) g = (inr out, g ++ ns).
Proof.
  induction p as [| s p IH]; simpl; intros Hacc x g ns out H.
  - injection H as <- <-; rewrite app_nil_r; reflexivity.
  - apply Forall_app in Hacc as (Hs & Hp).
    destruct (stage_nodes (List.length g) x s) as [[ns1 y] |] eqn:H1; [| discriminate].
    destruct (plan_nodes (List.length ns1 + List.length g) y p) as [[ns2 out'] |] eqn:H2;
      [| discriminate].
    injection H as <- <-.
    unfold run, bind.
    rewrite (build_stage_run _ _ _ Hs H1 : build_stage s x g = _).
    rewrite Nat.add_comm, <- length_app in H2.
    rewrite app_assoc. apply (IH Hp); exact H2.
Qed.

End Runs.

(** ** Shapes *)

Lemma dim_eqb_refl (d : option Z) : dim_eqb d d = true.
Proof. destruct d as [z |]; simpl; [apply Z.eqb_refl | reflexivity]. Qed.

Lemma shape_eqb_refl (s : Shape) : shape_eqb s s = true.
Proof. induction s as [| d s IH]; simpl; [| rewrite dim_eqb_refl, IH]; reflexivity. Qed.

Lemma dim_eqb_eq (a b : option Z) : dim_eqb a b = true -> a = b.
Proof.
  destruct a, b; simpl; try discriminate; try reflexivity.
  intro H; apply Z.eqb_eq in H; congruence.
Qed.

Lemma shape_eqb_eq (s t : Shape) : shape_eqb s t = true -> s = t.
Proof.
  revert t; induction s as [| a s IH]; destruct t as [| b t]; simpl;
    try discriminate; try reflexivity.
  intro H; apply andb_true_iff in H as (Hd & Hs).
  apply dim_eqb_eq in Hd; apply IH in Hs; congruence.
Qed.

Lemma ceil_div_1 (d : Z) : ceil_div d 1 = d.
Proof. unfold ceil_div; rewrite Z.div_1_r; lia. Qed.

Lemma same_dim_1 (d : option Z) : same_dim d 1 = d.
Proof. destruct d; simpl; [rewrite ceil_div_1 |]; reflexivity. Qed.

Lemma chain_nodes_shape (ls : list Layer) :
  forall n x s,
    chain_shape (shape x) ls = Some s ->
    exists ns out, chain_nodes n x ls = Some (ns, out) /\ shape out = s.
Proof.
  induction ls as [| l ls IH]; simpl; intros n x s H.
  - injection H as <-; eauto.
  - destruct (infer_shape l [shape x]) as [s' |]; [| discriminate].
    destruct (IH (S n) (mkTensor n s') s H) as (ns & out & -> & Hout).
    eauto.
Qed.

(** ** Engines *)

Lemma strict_accepts_valid : AcceptsValid strict.
Proof. intros l H; simpl; rewrite H; reflexivity. Qed.

Lemma permissive_accepts_valid : AcceptsValid permissive.
Proof. intros l _; reflexivity. Qed.



Lemma valid_accepted {E : Engine} (HV : AcceptsValid E) (ls : list Layer) :
  forallb valid_layer ls = true -> Forall accepted ls.
Proof.
  intro H; apply Forall_forall; intros l Hin.
  apply HV. rewrite forallb_forall in H; auto.
Qed.

Lemma unit_layers_shape (pre post : bool) (v : Variant) (nf : Z) (ks st : Z * Z)
    (b h w c : option Z) :
  chain_shape [b; h; w; c] (unit_layers pre (conv_of v nf ks st) post) =
  Some [b; same_dim h (fst st); same_dim w (snd st); Some nf].
Proof. destruct pre, post, v; reflexivity. Qed.

(** ** The convolutional unit *)

(** C1.  For a supported [conv_layer], [convolutional_unit] is the sequential
    application of: relu iff [pre_activation]; the chosen convolution with the
    given filters, kernel size and strides, "same" padding and no bias; batch
    normalization, exactly once; relu iff [post_activation].  When it returns,
    the nodes it appended are exactly that chain, in that order; and it returns
    whenever the engine constructs these layers and the input has rank four. *)
Theorem convolutional_unit_pipeline {E : Engine} (x : Tensor) (nf : Z) (ks : Z * Z)
    (st : option (Z * Z)) (pre post : option bool) (cl : option string) (g : Graph) :
  In (kwarg "Conv2D" cl) supported ->
  let conv := conv_of (variant_of (kwarg "Conv2D" cl)) nf ks (kwarg (1, 1) st) in
  let pipeline := relu_if (kwarg false pre) ++ [conv] ++ [BatchNormalization]
                  ++ relu_if (kwarg true post) in
  (kwarg "Conv2D" cl = "Conv2D" -> conv = Conv2D nf ks (kwarg (1, 1) st) "same" false) /\
  (kwarg "Conv2D" cl = "SeparableConv2D" ->
   conv = SeparableConv2D nf ks (kwarg (1, 1) st) "same" false) /\
  run (convolutional_unit x nf ks st pre post cl) g = run (sequential pipeline x) g /\
  count_layers is_batch_norm pipeline = 1%nat /\
  (forall out g',
      run (convolutional_unit x nf ks st pre post cl) g = (inr out, g') ->
      exists ns, g' = g ++ ns /\
                 chain_nodes (List.length g) x pipeline = Some (ns, out) /\
                 map node_layer ns = pipeline) /\
  (Forall accepted pipeline ->
   forall b h w c, shape x = [b; h; w; c] ->
     exists out ns,
       run (convolutional_unit x nf ks st pre post cl) g = (inr out, g ++ ns) /\
       map node_layer ns = pipeline /\
       shape out = [b; same_dim h (fst (kwarg (1, 1) st));
                    same_dim w (snd (kwarg (1, 1) st)); Some nf]).
Proof.
  intros Hin conv pipeline.
  pose proof (convolutional_unit_sequential x nf ks st pre post cl Hin g) as Hseq.
  fold conv in Hseq. change (unit_layers _ conv _) with pipeline in Hseq.
  repeat split.
  - intro H; subst conv; rewrite H; reflexivity.
  - intro H; subst conv; rewrite H; reflexivity.
  - exact Hseq.
  - subst pipeline conv.
    destruct (kwarg false pre), (kwarg true post), (variant_of (kwarg "Conv2D" cl)); reflexivity.
  - intros out g' H. rewrite Hseq in H.
    apply sequential_inv in H as (_ & ns & -> & Hc).
    exists ns; repeat split; auto. eapply chain_nodes_layers; eassumption.
  - intros Hacc b h w c Hx.
    destruct (chain_nodes_shape pipeline (List.length g) x) with
      (s := [b; same_dim h (fst (kwarg (1, 1) st)); same_dim w (snd (kwarg (1, 1) st)); Some nf])
      as (ns & out & Hc & Hout).
    { rewrite Hx. apply unit_layers_shape. }
    exists out, ns. rewrite Hseq.
    repeat split; auto.
    + apply sequential_run; assumption.
    + eapply chain_nodes_layers; eassumption.
Qed.

Lemma convolutional_unit_pipeline_witness :
  run (convolutional_unit (E := strict) (mkTensor 0 [None; Some 299; Some 299; Some 3])
         32 (3, 3) (Some (2, 2)) None None None) [] =
  run (sequential (E := strict)
         [Conv2D 32 (3, 3) (2, 2) "same" false; BatchNormalization; Activation "relu"]
         (mkTensor 0 [None; Some 299; Some 299; Some 3])) [].
Proof.
  exact (proj1 (proj2 (proj2
    (convolutional_unit_pipeline (E := strict) (mkTensor 0 [None; Some 299; Some 299; Some 3])
       32 (3, 3) (Some (2, 2)) None None None [] (or_introl eq_refl))))).
Defined.

(** C2.  [separable_convolutional_unit] is [convolutional_unit] with a 3x3
    kernel, strides (1, 1) and the separable convolution, the two flags handed
    on; omitted flags stand for [pre_activation=True], [post_activation=False],
    where [convolutional_unit] has [False] and [True]; with both omitted the
    activation placement is relu, convolution, normalization. *)
Theorem separable_convolutional_unit_spec {E : Engine} (x : Tensor) (nf : Z)
    (pre post : option bool) (g : Graph) :
  run (separable_convolutional_unit x nf pre post) g =
  run (convolutional_unit x nf (3, 3) (Some (1, 1)) (Some (kwarg true pre))
         (Some (kwarg false post)) (Some "SeparableConv2D")) g /\
  run (separable_convolutional_unit x nf None None) g =
  run (separable_convolutional_unit x nf (Some true) (Some false)) g /\
  (forall ks st cl,
      run (convolutional_unit x nf ks st None None cl) g =
      run (convolutional_unit x nf ks st (Some false) (Some true) cl) g) /\
  run (separable_convolutional_unit x nf None None) g =
  run (sequential [Activation "relu"; SeparableConv2D nf (3, 3) (1, 1) "same" false;
                   BatchNormalization] x) g /\
  run (separable_convolutional_unit x nf pre post) g =
  run (sequential (relu_if (kwarg true pre)
                   ++ [SeparableConv2D nf (3, 3) (1, 1) "same" false; BatchNormalization]
                   ++ relu_if (kwarg false post)) x) g.
Proof.
  repeat split; try reflexivity.
  apply (separable_convolutional_unit_sequential x nf pre post).
Qed.

(** C7.  A [conv_layer] outside the two supported strings makes
    [convolutional_unit] raise its [ValueError], whose message names the
    parameter and the value found, and the construction log is as it was
    before the call; for a supported string the unit never raises that error. *)
Theorem convolutional_unit_rejects_unsupported {E : Engine} (x : Tensor) (nf : Z)
    (ks : Z * Z) (st : option (Z * Z)) (pre post : option bool) (cl : string) (g : Graph) :
  (~ In cl supported ->
   run (convolutional_unit x nf ks st pre post (Some cl)) g =
   (inl (ValueError
           (String.append "conv_layer must be either Conv2D or SeparableConv2D. Found " cl)),
    g)) /\
  (In cl supported ->
   forall msg, fst (run (convolutional_unit x nf ks st pre post (Some cl)) g)
               <> inl (ValueError msg)).
Proof.
  split.
  - intro Hn. unfold run, convolutional_unit.
    change (kwarg "Conv2D" (Some cl)) with cl.
    destruct (str_in cl ["Conv2D"; "SeparableConv2D"]) eqn:Hb; [| reflexivity].
    exfalso; apply Hn; apply str_in_supported; exact Hb.
  - intros Hin msg.
    rewrite (convolutional_unit_sequential x nf ks st pre post (Some cl) Hin g).
    destruct (run (sequential _ x) g) as [[e | out] g'] eqn:H; simpl; [| discriminate].
    apply sequential_fail in H as (l & _ & [(m & _ & ->) | (ss & ->)]); discriminate.
Qed.

Lemma convolutional_unit_rejects_unsupported_witness :
  run (convolutional_unit (E := permissive) (mkTensor 0 [None; Some 299; Some 299; Some 3])
         32 (3, 3) None None None (Some "DepthwiseConv2D")) [] =
  (inl (ValueError
          "conv_layer must be either Conv2D or SeparableConv2D. Found DepthwiseConv2D"), [])
  /\
  forall msg,
    fst (run (convolutional_unit (E := permissive)
                (mkTensor 0 [None; Some 299; Some 299; Some 3])
                32 (3, 3) None None None (Some "SeparableConv2D")) [])
    <> inl (ValueError msg).
Proof.
  split.
  - apply (proj1 (convolutional_unit_rejects_unsupported (E := permissive)
                    (mkTensor 0 [None; Some 299; Some 299; Some 3])
                    32 (3, 3) None None None "DepthwiseConv2D" [])).
    simpl; intros [H | [H | []]]; discriminate.
  - apply (proj2 (convolutional_unit_rejects_unsupported (E := permissive)
                    (mkTensor 0 [None; Some 299; Some 299; Some 3])
                    32 (3, 3) None None None "SeparableConv2D" [])).
    simpl; auto.
Defined.





(** ** The three flows *)

Ltac eval_plan :=
  repeat (cbn -[same_dim shape_eqb]; rewrite ?same_dim_1, ?shape_eqb_refl);
  reflexivity.

Lemma plan_run_nodes {E : Engine} (HV : AcceptsValid E) (p : Plan) (x : Tensor) (g : Graph)
    (ns : list Node) (out : Tensor) :
  forallb valid_layer (plan_layers p) = true ->
  plan_nodes (List.length g) x p = Some (ns, out) ->
  run (build_plan p x) g = (inr out, g ++ ns).
Proof.
  intros Hv Hn. apply build_plan_run; [| exact Hn].
  apply valid_accepted; assumption.
Qed.

Lemma entry_plan_nodes (n i : nat) (b h w c : option Z) :
  plan_nodes n (mkTensor i [b; h; w; c]) entry_plan =
  Some (realize n (mkTensor i [b; h; w; c]) (entry_summary b h w),
        mkTensor (35 + n)
          [b; same_dim (same_dim (same_dim (same_dim h 2) 2) 2) 2;
           same_dim (same_dim (same_dim (same_dim w 2) 2) 2) 2; Some 728]).
Proof. eval_plan. Qed.

Lemma exit_plan_nodes (n i : nat) (b h w : option Z) :
  plan_nodes n (mkTensor i [b; h; w; Some 728]) exit_plan =
  Some (realize n (mkTensor i [b; h; w; Some 728]) (exit_summary b h w),
        mkTensor (20 + n) [b; Some 1000]).
Proof. eval_plan. Qed.

Lemma middle_plan_nodes (n i : nat) (b h w : option Z) :
  plan_nodes n (mkTensor i [b; h; w; Some 728]) middle_plan =
  Some (realize n (mkTensor i [b; h; w; Some 728]) (middle_summary [b; h; w; Some 728]),
        mkTensor (79 + n) [b; h; w; Some 728]).
Proof. eval_plan. Qed.

Lemma map_snd_combine_seq {A B} (f : A -> B) (l : list A) (a : nat) :
  map (fun kr : nat * A => f (snd kr)) (combine (seq a (List.length l)) l) = map f l.
Proof.
  revert a; induction l as [| y l IH]; intro a; simpl; [| rewrite IH]; reflexivity.
Qed.

Lemma realize_layers (n : nat) (x : Tensor) (rows : list Row) :
  map node_layer (realize n x rows) = map row_layer rows.
Proof.
  unfold realize. rewrite map_map. simpl.
  apply (map_snd_combine_seq row_layer).
Qed.

Lemma realize_length (n : nat) (x : Tensor) (rows : list Row) :
  List.length (realize n x rows) = List.length rows.
Proof.
  rewrite <- (length_map node_layer), realize_layers. apply length_map.
Qed.

Section FlowRuns.

Context {E : Engine} (HV : AcceptsValid E).

Lemma entry_flow_run (x : Tensor) (g : Graph) (b h w c : option Z) :
  shape x = [b; h; w; c] ->
  run (entry_flow x) g =
  (inr (mkTensor (35 + List.length g)
          [b; same_dim (same_dim (same_dim (same_dim h 2) 2) 2) 2;
           same_dim (same_dim (same_dim (same_dim w 2) 2) 2) 2; Some 728]),
   g ++ realize (List.length g) x (entry_summary b h w)).
Proof.
  intro Hx. destruct x as [i sx]; simpl in Hx; subst sx.
  rewrite (entry_flow_plan _ g).
  apply (plan_run_nodes HV); [reflexivity | apply entry_plan_nodes].
Qed.

Lemma middle_flow_run (x : Tensor) (g : Graph) (b h w : option Z) :
  shape x = [b; h; w; Some 728] ->
  run (middle_flow x) g =
  (inr (mkTensor (79 + List.length g) (shape x)),
   g ++ realize (List.length g) x (middle_summary (shape x))).
Proof.
  intro Hx. destruct x as [i sx]; simpl in Hx; subst sx.
  rewrite (middle_flow_plan _ g).
  apply (plan_run_nodes HV); [reflexivity | apply middle_plan_nodes].
Qed.

Lemma exit_flow_run (x : Tensor) (g : Graph) (b h w : option Z) :
  shape x = [b; h; w; Some 728] ->
  run (exit_flow x) g =
  (inr (mkTensor (20 + List.length g) [b; Some 1000]),
   g ++ realize (List.length g) x (exit_summary b h w)).
Proof.
  intro Hx. destruct x as [i sx]; simpl in Hx; subst sx.
  rewrite (exit_flow_plan _ g).
  apply (plan_run_nodes HV); [reflexivity | apply exit_plan_nodes].
Qed.

End FlowRuns.

(** C3.  [entry_flow] builds its plan on every input.  On an input of rank
    four, with an engine that constructs the valid layers, it returns and
    appends exactly the 36 nodes of [entry_summary]: the two standard units
    (32 filters, 3x3, stride 2x2; 64 filters, 3x3, stride 1x1; relu after the
    normalization only), then for 128, 256 and 728 filters a block made of
    the 1x1 stride-2x2 projection of the block input with no activation, two
    separable units in sequence on the block input, a 3x3 stride-2x2 "same"
    max-pooling, and the sum of the projection and the pooled branch: three
    sums in all, of 128, 256 and 728 channels. *)
Theorem entry_flow_structure {E : Engine} (x : Tensor) (g : Graph) :
  run (entry_flow x) g = run (build_plan entry_plan x) g /\
  (AcceptsValid E ->
   forall b h w c, shape x = [b; h; w; c] ->
     let ns := realize (List.length g) x (entry_summary b h w) in
     run (entry_flow x) g =
       (inr (mkTensor (35 + List.length g)
               [b; same_dim (same_dim (same_dim (same_dim h 2) 2) 2) 2;
                same_dim (same_dim (same_dim (same_dim w 2) 2) 2) 2; Some 728]),
        g ++ ns) /\
     List.length ns = 36%nat /\
     count_layers is_add (map node_layer ns) = 3%nat /\
     map (fun nd => nth 3 (shape (node_output nd)) None) (add_nodes ns) =
       [Some 128; Some 256; Some 728]).
Proof.
  split; [apply entry_flow_plan |].
  intros HV b h w c Hx ns.
  split; [eapply entry_flow_run; eassumption |].
  destruct x as [i sx]; simpl in Hx; subst sx.
  repeat split.
Qed.

Lemma entry_flow_structure_witness :
  run (entry_flow (E := strict) (mkTensor 0 [None; Some 299; Some 299; Some 3])) [] =
  (inr (mkTensor 35 [None; Some 19; Some 19; Some 728]),
   realize 0 (mkTensor 0 [None; Some 299; Some 299; Some 3])
           (entry_summary None (Some 299) (Some 299))).
Proof.
  exact (proj1 (proj2 (entry_flow_structure (E := strict)
                         (mkTensor 0 [None; Some 299; Some 299; Some 3]) [])
                      strict_accepts_valid None (Some 299) (Some 299) (Some 3) eq_refl)).
Defined.

(** C4.  [middle_flow] builds eight identical residual blocks of three
    separable units each, all with 728 filters, a relu before the convolution
    and none after the normalization.  On an input of shape [[b; h; w; 728]],
    with an engine that constructs the valid layers, it returns a tensor of
    the shape of its input and appends exactly the 80 nodes of
    [middle_summary]: 8 sums and 24 separable convolutions, where the first
    operand of each sum is the input of its block: the flow input for the
    first block, the sum before it for the others. *)
Theorem middle_flow_structure {E : Engine} (x : Tensor) (g : Graph) :
  run (middle_flow x) g = run (build_plan middle_plan x) g /\
  middle_plan = repeat (Residual [] [SepConvUnit 728 true false; SepConvUnit 728 true false;
                                      SepConvUnit 728 true false]) 8 /\
  plan_ops middle_plan = repeat (SepConvUnit 728 true false) 24 /\
  (AcceptsValid E ->
   forall b h w, shape x = [b; h; w; Some 728] ->
     let ns := realize (List.length g) x (middle_summary (shape x)) in
     let out := mkTensor (79 + List.length g) (shape x) in
     run (middle_flow x) g = (inr out, g ++ ns) /\
     shape out = shape x /\
     List.length ns = 80%nat /\
     count_layers is_add (map node_layer ns) = 8%nat /\
     count_layers is_separable_conv2d (map node_layer ns) = 24%nat /\
     map node_layer ns =
       List.concat (repeat (op_layers (SepConvUnit 728 true false)
                       ++ op_layers (SepConvUnit 728 true false)
                       ++ op_layers (SepConvUnit 728 true false) ++ [Add]) 8) /\
     map (first_input x) (add_nodes ns) = x :: removelast (map node_output (add_nodes ns))).
Proof.
  split; [apply middle_flow_plan |].
  split; [reflexivity |]. split; [reflexivity |].
  intros HV b h w Hx ns out.
  split; [eapply middle_flow_run; eassumption |].
  destruct x as [i sx]; simpl in Hx; subst sx.
  repeat split.
Qed.

Lemma middle_flow_structure_witness :
  run (middle_flow (E := strict) (mkTensor 0 [None; Some 19; Some 19; Some 728])) [] =
  (inr (mkTensor 79 [None; Some 19; Some 19; Some 728]),
   realize 0 (mkTensor 0 [None; Some 19; Some 19; Some 728])
           (middle_summary [None; Some 19; Some 19; Some 728])).
Proof.
  exact (proj1 (proj2 (proj2 (proj2 (middle_flow_structure (E := strict)
                         (mkTensor 0 [None; Some 19; Some 19; Some 728]) [])))
                      strict_accepts_valid None (Some 19) (Some 19) eq_refl)).
Defined.

(** C5.  [exit_flow] builds its plan on every input.  On an input of shape
    [[b; h; w; 728]], with an engine that constructs the valid layers, it
    returns a tensor of shape [[b; 1000]] and appends exactly the 21 nodes of
    [exit_summary]: the 1x1 stride-2x2 projection to 1024 channels with no
    activation; separable units of 728 then 1024 filters (relu first) and a
    3x3 stride-2x2 "same" max-pooling; their sum; separable units of 1536 and
    2048 filters with the relu after the normalization; global average
    pooling; Dense(2048), relu; Dense(1000), softmax.  In the plan of the
    whole network the two units of 1536 and 2048 filters are the only
    separable units with the flags overridden. *)
Theorem exit_flow_structure {E : Engine} (x : Tensor) (g : Graph) :
  run (exit_flow x) g = run (build_plan exit_plan x) g /\
  filter is_sep_unit (plan_ops exit_plan) =
    [SepConvUnit 728 true false; SepConvUnit 1024 true false;
     SepConvUnit 1536 false true; SepConvUnit 2048 false true] /\
  filter overridden (plan_ops network_plan) =
    [SepConvUnit 1536 false true; SepConvUnit 2048 false true] /\
  (AcceptsValid E ->
   forall b h w, shape x = [b; h; w; Some 728] ->
     let ns := realize (List.length g) x (exit_summary b h w) in
     let out := mkTensor (20 + List.length g) [b; Some 1000] in
     run (exit_flow x) g = (inr out, g ++ ns) /\
     map node_layer ns =
       [Conv2D 1024 (1, 1) (2, 2) "same" false; BatchNormalization;
        Activation "relu"; SeparableConv2D 728 (3, 3) (1, 1) "same" false; BatchNormalization;
        Activation "relu"; SeparableConv2D 1024 (3, 3) (1, 1) "same" false; BatchNormalization;
        MaxPool2D (3, 3) (2, 2) "same";
        Add;
        SeparableConv2D 1536 (3, 3) (1, 1) "same" false; BatchNormalization; Activation "relu";
        SeparableConv2D 2048 (3, 3) (1, 1) "same" false; BatchNormalization; Activation "relu";
        GlobalAveragePooling2D;
        Dense 2048; Activation "relu";
        Dense 1000; Activation "softmax"] /\
     count_layers is_add (map node_layer ns) = 1%nat /\
     map node_inputs (add_nodes ns) =
       [[mkTensor (1 + List.length g) [b; same_dim h 2; same_dim w 2; Some 1024];
         mkTensor (8 + List.length g) [b; same_dim h 2; same_dim w 2; Some 1024]]]).
Proof.
  split; [apply exit_flow_plan |].
  split; [reflexivity |]. split; [reflexivity |].
  intros HV b h w Hx ns out.
  split; [eapply exit_flow_run; eassumption |].
  destruct x as [i sx]; simpl in Hx; subst sx.
  repeat split.
Qed.

Lemma exit_flow_structure_witness :
  run (exit_flow (E := strict) (mkTensor 0 [None; Some 19; Some 19; Some 728])) [] =
  (inr (mkTensor 20 [None; Some 1000]),
   realize 0 (mkTensor 0 [None; Some 19; Some 19; Some 728])
           (exit_summary None (Some 19) (Some 19))).
Proof.
  exact (proj1 (proj2 (proj2 (proj2 (exit_flow_structure (E := strict)
                         (mkTensor 0 [None; Some 19; Some 19; Some 728]) [])))
                      strict_accepts_valid None (Some 19) (Some 19) eq_refl)).
Defined.

(** ** The assembled model *)

Section ModelPlan.

Context {E : Primitives}.

Lemma model_plan :
  build_eq model
           (x <- apply_layer (Input [299; 299; 3]) [] ;;
            out <- build_plan network_plan x ;;
            ret (mkModel x out "Xception")).
Proof.
  unfold model, network_plan.
  apply bind_cong; [reflexivity | intro x].
  transitivity (a <- build_plan entry_plan x ;;
                b <- build_plan middle_plan a ;;
                c <- build_plan exit_plan b ;;
                ret (mkModel x c "Xception")).
  - apply bind_cong; [apply entry_flow_plan | intro a].
    apply bind_cong; [apply middle_flow_plan | intro b].
    apply bind_cong; [apply exit_flow_plan | intro c; reflexivity].
  - symmetry.
    transitivity (out <- (a <- build_plan entry_plan x ;;
                          build_plan (middle_plan ++ exit_plan) a) ;;
                  ret (mkModel x out "Xception")).
    { apply bind_cong; [apply build_plan_app | intro; reflexivity]. }
    transitivity (a <- build_plan entry_plan x ;;
                  out <- build_plan (middle_plan ++ exit_plan) a ;;
                  ret (mkModel x out "Xception")).
    { apply bind_assoc. }
    apply bind_cong; [reflexivity | intro a].
    transitivity (out <- (b <- build_plan middle_plan a ;; build_plan exit_plan b) ;;
                  ret (mkModel x out "Xception")).
    { apply bind_cong; [apply build_plan_app | intro; reflexivity]. }
    apply bind_assoc.
Qed.

End ModelPlan.

Lemma chain_nodes_shift (k : nat) (ls : list Layer) :
  forall n x,
    chain_nodes (n + k) (shift_tensor k x) ls = option_map (shift_result k) (chain_nodes n x ls).
Proof.
  induction ls as [| l ls IH]; intros n x; simpl; [reflexivity |].
  destruct (infer_shape l [shape x]) as [s |]; [| reflexivity].
  change (chain_nodes (S (n + k)) (mkTensor (n + k) s) ls)
    with (chain_nodes (S n + k) (shift_tensor k (mkTensor n s)) ls).
  rewrite IH.
  destruct (chain_nodes (S n) (mkTensor n s) ls) as [[ns out] |]; reflexivity.
Qed.

Lemma stage_nodes_shift (k : nat) (s : Stage) (n : nat) (x : Tensor) :
  stage_nodes (n + k) (shift_tensor k x) s = option_map (shift_result k) (stage_nodes n x s).
Proof.
  destruct s as [os | sc mn]; simpl; [apply chain_nodes_shift |].
  rewrite chain_nodes_shift.
  destruct (chain_nodes n x (ops_layers sc)) as [[ns1 res] |]; [| reflexivity].
  simpl. rewrite length_map, Nat.add_assoc, chain_nodes_shift.
  destruct (chain_nodes (List.length ns1 + n) x (ops_layers mn)) as [[ns2 y] |];
    [| reflexivity].
  simpl. destruct (shape_eqb (shape res) (shape y)); [| reflexivity].
  simpl. unfold shift_result; simpl.
  rewrite !map_app, length_map. simpl.
  unfold shift_node at 3, shift_tensor at 3 4; simpl.
  rewrite !Nat.add_assoc. reflexivity.
Qed.

Lemma plan_nodes_shift (k : nat) (p : Plan) :
  forall n x,
    plan_nodes (n + k) (shift_tensor k x) p = option_map (shift_result k) (plan_nodes n x p).
Proof.
  induction p as [| s p IH]; intros n x; simpl; [reflexivity |].
  rewrite stage_nodes_shift.
  destruct (stage_nodes n x s) as [[ns y] |]; [| reflexivity].
  simpl. rewrite length_map, Nat.add_assoc, IH.
  destruct (plan_nodes (List.length ns + n) y p) as [[ns' out] |]; [| reflexivity].
  simpl. unfold shift_result; simpl. rewrite map_app. reflexivity.
Qed.

Lemma shift_node_add (j k : nat) (nd : Node) :
  shift_node k (shift_node j nd) = shift_node (j + k) nd.
Proof.
  destruct nd as [l ins [i s]]; unfold shift_node, shift_tensor; simpl.
  rewrite map_map, Nat.add_assoc. f_equal.
  apply map_ext; intros [i' s']; simpl; rewrite Nat.add_assoc; reflexivity.
Qed.


(* Statements below mention closed calls such as
   [plan_nodes 1 _ network_plan]; implicit arguments are given by hand from
   here on. *)
Unset Implicit Arguments.

Lemma network_plan_valid : forallb valid_layer (plan_layers network_plan) = true.
Proof. vm_compute. reflexivity. Qed.

Lemma input_run {E : Engine} (HV : AcceptsValid E) (g : Graph) :
  run (apply_layer (Input [299; 299; 3]) []) g =
  (inr (mkTensor (List.length g) [None; Some 299; Some 299; Some 3]),
   g ++ [mkNode (Input [299; 299; 3]) []
                (mkTensor (List.length g) [None; Some 299; Some 299; Some 3])]).
Proof. apply apply_layer_run; [apply HV |]; reflexivity. Qed.

(** A placeholder followed by a plan: the nodes are those the plan gives
    from position 1 of an empty log, moved up by the length of the log. *)
Lemma placeholder_plan_run {E : Engine} (HV : AcceptsValid E) (p : Plan)
    (ns : list Node) (out : Tensor) (g : Graph) :
  forallb valid_layer (plan_layers p) = true ->
  plan_nodes 1 (mkTensor 0 [None; Some 299; Some 299; Some 3]) p = Some (ns, out) ->
  run (x <- apply_layer (Input [299; 299; 3]) [] ;;
       out <- build_plan p x ;;
       ret (mkModel x out "Xception")) g =
  (inr (mkModel (mkTensor (List.length g) [None; Some 299; Some 299; Some 3])
                (shift_tensor (List.length g) out) "Xception"),
   g ++ mkNode (Input [299; 299; 3]) []
               (mkTensor (List.length g) [None; Some 299; Some 299; Some 3])
     :: map (shift_node (List.length g)) ns).
Proof.
  intros Hv Hn.
  pose proof (plan_nodes_shift (List.length g) p 1
                (mkTensor 0 [None; Some 299; Some 299; Some 3])) as Hs.
  rewrite Hn in Hs.
  assert (Hlen : (1 + List.length g)%nat =
                 List.length (g ++ [mkNode (Input [299; 299; 3]) []
                               (mkTensor (List.length g) [None; Some 299; Some 299; Some 3])])).
  { rewrite length_app, Nat.add_comm. reflexivity. }
  rewrite Hlen in Hs.
  apply (plan_run_nodes HV _ _ _ Hv) in Hs.
  unfold run, bind in *.
  rewrite (input_run HV g : apply_layer _ _ g = _).
  change (shift_tensor (List.length g) (mkTensor 0 [None; Some 299; Some 299; Some 3]))
    with (mkTensor (List.length g) [None; Some 299; Some 299; Some 3]) in Hs.
  rewrite Hs.
  unfold ret. rewrite <- app_assoc. reflexivity.
Qed.

(** Every build of the model appends the reference graph, with its handles
    moved up by the length of the log the build started from. *)
Lemma model_run {E : Engine} (HV : AcceptsValid E) (m0 : Model) (G0 : Graph) (g : Graph) :
  xception_graph = Some (m0, G0) ->
  run model g = (inr (shift_model (List.length g) m0),
                 g ++ map (shift_node (List.length g)) G0).
Proof.
  unfold xception_graph.
  change (infer_shape (Input [299; 299; 3]) [])
    with (Some [None; Some 299; Some 299; Some 3]).
  cbv beta iota zeta.
  remember (plan_nodes 1 (mkTensor 0 [None; Some 299; Some 299; Some 3]) network_plan)
    as r eqn:Hn.
  destruct r as [[ns out] |]; [| discriminate].
  intro H; injection H as <- <-.
  symmetry in Hn.
  rewrite (model_plan g).
  exact (placeholder_plan_run HV network_plan ns out g network_plan_valid Hn).
Qed.

(** The reference graph exists; its counts and handles. *)
Lemma xception_graph_facts :
  exists m0 G0,
    xception_graph = Some (m0, G0) /\
    m0 = mkModel (mkTensor 0 [None; Some 299; Some 299; Some 3])
                 (mkTensor 137 [None; Some 1000]) "Xception" /\
    G0 = mkNode (Input [299; 299; 3]) [] (mkTensor 0 [None; Some 299; Some 299; Some 3])
         :: realize 1 (mkTensor 0 [None; Some 299; Some 299; Some 3])
                    (entry_summary None (Some 299) (Some 299))
         ++ realize 37 (mkTensor 36 [None; Some 19; Some 19; Some 728])
                    (middle_summary [None; Some 19; Some 19; Some 728])
         ++ realize 117 (mkTensor 116 [None; Some 19; Some 19; Some 728])
                    (exit_summary None (Some 19) (Some 19)) /\
    map (fun nd => tid (node_output nd)) G0 = seq 0 138.
Proof.
  eexists; eexists. split; [vm_compute; reflexivity |].
  split; [reflexivity |]. split; vm_compute; reflexivity.
Qed.

(** The spatial sizes of the network: 299 halves to 150, 75, 38, 19, 10. *)
Example same_dim_299 :
  map (fun k => Nat.iter k (fun d => same_dim d 2) (Some 299)) [1; 2; 3; 4; 5]%nat =
  [Some 150; Some 75; Some 38; Some 19; Some 10].
Proof. reflexivity. Qed.

Lemma map_shift_layers (k : nat) (ns : list Node) :
  map node_layer (map (shift_node k) ns) = map node_layer ns.
Proof. rewrite map_map. reflexivity. Qed.

(** C6.  The module declares a placeholder of shape (299, 299, 3) with an
    unbound batch axis, hands it to [entry_flow], the result to
    [middle_flow], that result to [exit_flow], and wraps the placeholder and
    the last result in a [Model] named "Xception"; the log gains the
    placeholder node and the nodes of the three flows, in that order, and
    nothing else. *)
Theorem model_assembly {E : Engine} (g : Graph) :
  AcceptsValid E ->
  let x := mkTensor (List.length g) [None; Some 299; Some 299; Some 3] in
  let g0 := g ++ [mkNode (Input [299; 299; 3]) [] x] in
  let a := mkTensor (35 + List.length g0) [None; Some 19; Some 19; Some 728] in
  let ne := realize (List.length g0) x (entry_summary None (Some 299) (Some 299)) in
  let g1 := g0 ++ ne in
  let b := mkTensor (79 + List.length g1) [None; Some 19; Some 19; Some 728] in
  let nm := realize (List.length g1) a (middle_summary [None; Some 19; Some 19; Some 728]) in
  let g2 := g1 ++ nm in
  let c := mkTensor (20 + List.length g2) [None; Some 1000] in
  let nx := realize (List.length g2) b (exit_summary None (Some 19) (Some 19)) in
  run (apply_layer (Input [299; 299; 3]) []) g = (inr x, g0) /\
  run (entry_flow x) g0 = (inr a, g1) /\
  run (middle_flow a) g1 = (inr b, g2) /\
  run (exit_flow b) g2 = (inr c, g2 ++ nx) /\
  run model g = (inr (mkModel x c "Xception"), g2 ++ nx) /\
  g2 ++ nx = g ++ mkNode (Input [299; 299; 3]) [] x :: ne ++ nm ++ nx /\
  c = mkTensor (137 + List.length g) [None; Some 1000].
Proof.
  intros HV x g0 a ne g1 b nm g2 c nx.
  assert (H0 : run (apply_layer (Input [299; 299; 3]) []) g = (inr x, g0))
    by apply (input_run HV).
  assert (H1 : run (entry_flow x) g0 = (inr a, g1))
    by apply (entry_flow_run HV x g0 (c := Some 3) eq_refl).
  assert (H2 : run (middle_flow a) g1 = (inr b, g2))
    by apply (middle_flow_run HV a g1 (b := None) (h := Some 19) (w := Some 19) eq_refl).
  assert (H3 : run (exit_flow b) g2 = (inr c, g2 ++ nx))
    by apply (exit_flow_run HV b g2 (b := None) (h := Some 19) (w := Some 19) eq_refl).
  repeat split; try assumption.
  - unfold model, run, bind in *.
    rewrite H0, H1, H2, H3. reflexivity.
  - unfold g2, g1, g0. rewrite <- !app_assoc. reflexivity.
  - unfold c, g2, g1, g0, nm, ne. f_equal.
    rewrite !length_app, !realize_length. simpl. lia.
Qed.

Lemma model_assembly_witness :
  run (model (E := strict)) [] =
  (inr (mkModel (mkTensor 0 [None; Some 299; Some 299; Some 3])
                (mkTensor 137 [None; Some 1000]) "Xception"),
   mkNode (Input [299; 299; 3]) [] (mkTensor 0 [None; Some 299; Some 299; Some 3])
   :: realize 1 (mkTensor 0 [None; Some 299; Some 299; Some 3])
              (entry_summary None (Some 299) (Some 299))
   ++ realize 37 (mkTensor 36 [None; Some 19; Some 19; Some 728])
              (middle_summary [None; Some 19; Some 19; Some 728])
   ++ realize 117 (mkTensor 116 [None; Some 19; Some 19; Some 728])
              (exit_summary None (Some 19) (Some 19))).
Proof.
  pose proof (model_assembly (E := strict) [] strict_accepts_valid) as H.
  cbv zeta in H.
  destruct H as (_ & _ & _ & _ & Hm & Hg & _).
  rewrite Hm, Hg. reflexivity.
Defined.

(** C9.  Whatever log the build starts from, the model adds 138 nodes: the
    placeholder and the nodes of the entry, middle and exit flows.  Among
    them exactly 12 are sums (3 entry, 8 middle, 1 exit), exactly 6 are
    standard convolutions (the two 3x3 of the entry stem, the three 1x1
    projections of the entry blocks, the 1x1 projection of the exit flow) and
    exactly 34 are separable convolutions (6 entry, 24 middle, 4 exit). *)
Theorem model_layer_counts {E : Engine} (g : Graph) :
  AcceptsValid E ->
  exists m inp ne nm nx,
    run model g = (inr m, g ++ inp :: ne ++ nm ++ nx) /\
    node_layer inp = Input [299; 299; 3] /\
    map node_layer ne = plan_layers entry_plan /\
    map node_layer nm = plan_layers middle_plan /\
    map node_layer nx = plan_layers exit_plan /\
    let all := map node_layer (inp :: ne ++ nm ++ nx) in
    List.length all = 138%nat /\
    count_layers is_add all = 12%nat /\
    count_layers is_add (map node_layer ne) = 3%nat /\
    count_layers is_add (map node_layer nm) = 8%nat /\
    count_layers is_add (map node_layer nx) = 1%nat /\
    count_layers is_conv2d all = 6%nat /\
    filter is_conv2d (map node_layer ne) =
      [Conv2D 32 (3, 3) (2, 2) "same" false; Conv2D 64 (3, 3) (1, 1) "same" false;
       Conv2D 128 (1, 1) (2, 2) "same" false; Conv2D 256 (1, 1) (2, 2) "same" false;
       Conv2D 728 (1, 1) (2, 2) "same" false] /\
    filter is_conv2d (map node_layer nm) = [] /\
    filter is_conv2d (map node_layer nx) = [Conv2D 1024 (1, 1) (2, 2) "same" false] /\
    count_layers is_separable_conv2d all = 34%nat /\
    count_layers is_separable_conv2d (map node_layer ne) = 6%nat /\
    count_layers is_separable_conv2d (map node_layer nm) = 24%nat /\
    count_layers is_separable_conv2d (map node_layer nx) = 4%nat.
Proof.
  intro HV.
  destruct xception_graph_facts as (m0 & G0 & HG & _ & -> & _).
  exists (shift_model (List.length g) m0).
  exists (shift_node (List.length g)
            (mkNode (Input [299; 299; 3]) []
                    (mkTensor 0 [None; Some 299; Some 299; Some 3]))).
  exists (map (shift_node (List.length g))
              (realize 1 (mkTensor 0 [None; Some 299; Some 299; Some 3])
                       (entry_summary None (Some 299) (Some 299)))).
  exists (map (shift_node (List.length g))
              (realize 37 (mkTensor 36 [None; Some 19; Some 19; Some 728])
                       (middle_summary [None; Some 19; Some 19; Some 728]))).
  exists (map (shift_node (List.length g))
              (realize 117 (mkTensor 116 [None; Some 19; Some 19; Some 728])
                       (exit_summary None (Some 19) (Some 19)))).
  split.
  { rewrite (model_run HV m0 _ g HG), map_cons, !map_app. reflexivity. }
  cbv zeta.
  rewrite <- !map_app, <- map_cons.
  rewrite !map_shift_layers, !realize_layers.
  repeat split.
Qed.

Lemma model_layer_counts_witness :
  exists m ns,
    run (model (E := strict)) [] = (inr m, ns) /\
    count_layers is_add (map node_layer ns) = 12%nat /\
    count_layers is_conv2d (map node_layer ns) = 6%nat /\
    count_layers is_separable_conv2d (map node_layer ns) = 34%nat.
Proof.
  destruct (model_layer_counts (E := strict) [] strict_accepts_valid)
    as (m & inp & ne & nm & nx & Hm & _ & _ & _ & _ & H).
  cbv zeta in H. destruct H as (_ & Ha & _ & _ & _ & Hc & _ & _ & _ & Hs & _).
  exists m, (inp :: ne ++ nm ++ nx). auto.
Defined.

(** C10.  Building is deterministic: there is one graph that every build
    of the model appends, up to moving the handles by the length of the log
    the build starts from.  Two builds one after the other therefore give the
    same sequence of layers with the same parameters and the same wiring,
    the second being the first with every handle moved up by 138, and no
    tensor of the second build is a tensor of the first. *)
Theorem model_deterministic {E : Engine} :
  AcceptsValid E ->
  exists m0 G0,
    (forall g,
        run model g = (inr (shift_model (List.length g) m0),
                       g ++ map (shift_node (List.length g)) G0)) /\
    forall g,
      let m1 := shift_model (List.length g) m0 in
      let ns1 := map (shift_node (List.length g)) G0 in
      exists m2 ns2,
        run model g = (inr m1, g ++ ns1) /\
        run model (g ++ ns1) = (inr m2, (g ++ ns1) ++ ns2) /\
        map node_layer ns2 = map node_layer ns1 /\
        ns2 = map (shift_node 138) ns1 /\
        m2 = shift_model 138 m1 /\
        List.length ns1 = 138%nat /\
        (forall a b, In a ns1 -> In b ns2 -> tid (node_output a) <> tid (node_output b)) /\
        tid (inputs m1) <> tid (inputs m2) /\
        tid (outputs m1) <> tid (outputs m2).
Proof.
  intro HV.
  destruct xception_graph_facts as (m0 & G0 & HG & Hm0 & _ & Hids).
  assert (Hlen : List.length G0 = 138%nat).
  { rewrite <- (length_map (fun nd => tid (node_output nd))), Hids. apply length_seq. }
  exists m0, G0. split; [intro g; apply (model_run HV m0 G0 g HG) |].
  intros g m1 ns1.
  exists (shift_model (List.length (g ++ ns1)) m0).
  exists (map (shift_node (List.length (g ++ ns1))) G0).
  assert (Hk : List.length (g ++ ns1) = (List.length g + 138)%nat).
  { unfold ns1. rewrite length_app, length_map, Hlen. reflexivity. }
  split; [apply (model_run HV m0 G0 g HG) |].
  split; [apply (model_run HV m0 G0 (g ++ ns1) HG) |].
  rewrite !Hk. clear Hk.
  split; [unfold ns1; rewrite !map_shift_layers; reflexivity |].
  split.
  { unfold ns1. rewrite map_map. apply map_ext. intro nd. apply eq_sym, shift_node_add. }
  split.
  { unfold m1. rewrite Hm0. unfold shift_model, shift_tensor; simpl.
    f_equal; f_equal; lia. }
  split; [unfold ns1; rewrite length_map; exact Hlen |].
  split.
  - intros a b Ha Hb. unfold ns1 in Ha.
    apply in_map_iff in Ha as (a0 & <- & Ha0).
    apply in_map_iff in Hb as (b0 & <- & Hb0).
    assert (Hin : forall nd, In nd G0 -> (tid (node_output nd) < 138)%nat).
    { intros nd Hnd.
      apply (in_map (fun nd => tid (node_output nd))) in Hnd.
      rewrite Hids in Hnd. apply in_seq in Hnd. lia. }
    apply Hin in Ha0, Hb0. simpl. lia.
  - unfold m1. rewrite Hm0. simpl. lia.
Qed.

Lemma model_deterministic_witness :
  exists m1 ns1 m2 ns2,
    run (model (E := strict)) [] = (inr m1, ns1) /\
    run (model (E := strict)) ns1 = (inr m2, ns1 ++ ns2) /\
    map node_layer ns2 = map node_layer ns1 /\
    tid (outputs m1) <> tid (outputs m2).
Proof.
  destruct (model_deterministic (E := strict) strict_accepts_valid) as (m0 & G0 & _ & H).
  destruct (H []) as (m2 & ns2 & H1 & H2 & Hl & _ & _ & _ & _ & _ & Ho).
  exists (shift_model 0 m0), (map (shift_node 0) G0), m2, ns2.
  auto.
Defined.

(** ** Forward wiring *)

Lemma produced_before_app (ns1 ns2 : list Node) (i : nat) (t : Tensor) :
  (i <= List.length ns1)%nat ->
  produced_before ns1 i t -> produced_before (ns1 ++ ns2) i t.
Proof.
  intros Hi (j & nd & Hj & Hn & Ho).
  exists j, nd. repeat split; auto.
  rewrite nth_error_app1 by lia. exact Hn.
Qed.

Lemma produced_before_shift (ns1 ns2 : list Node) (i : nat) (t : Tensor) :
  produced_before ns2 i t -> produced_before (ns1 ++ ns2) (List.length ns1 + i) t.
Proof.
  intros (j & nd & Hj & Hn & Ho).
  exists (List.length ns1 + j)%nat, nd. repeat split; [lia | | exact Ho].
  rewrite nth_error_app2 by lia.
  replace (List.length ns1 + j - List.length ns1)%nat with j by lia. exact Hn.
Qed.

Lemma produced_before_le (ns : list Node) (i j : nat) (t : Tensor) :
  (i <= j)%nat -> produced_before ns i t -> produced_before ns j t.
Proof. intros Hij (k & nd & Hk & H). exists k, nd. split; [lia | exact H]. Qed.

Lemma wired_nil (n : nat) (src : Tensor -> Prop) : wired n src [].
Proof. intros i nd H. destruct i; discriminate H. Qed.

Lemma wired_one (n : nat) (src : Tensor -> Prop) (l : Layer) (ins : list Tensor)
    (s : Shape) :
  (forall t, In t ins -> src t) ->
  wired n src [mkNode l ins (mkTensor n s)].
Proof.
  intros Hsrc i nd H. destruct i as [| i]; [| destruct i; discriminate H].
  injection H as <-. simpl. split; [lia |].
  apply Forall_forall. intros t Ht. left; auto.
Qed.

(** Two runs of nodes one after the other: the second may consume what the
    first was allowed to consume, and what the first produced. *)
Lemma wired_app (n : nat) (src src2 : Tensor -> Prop) (ns1 ns2 : list Node) :
  wired n src ns1 ->
  wired (n + List.length ns1) src2 ns2 ->
  (forall t, src2 t -> src t \/ produced_before ns1 (List.length ns1) t) ->
  wired n src (ns1 ++ ns2).
Proof.
  intros H1 H2 Hsrc i nd Hn.
  destruct (Nat.lt_ge_cases i (List.length ns1)) as [Hi | Hi].
  - rewrite nth_error_app1 in Hn by exact Hi.
    destruct (H1 i nd Hn) as (Ht & Hins). split; [exact Ht |].
    eapply Forall_impl; [| exact Hins]. intros t [Hs | Hp]; [left; exact Hs | right].
    apply produced_before_app; [lia | exact Hp].
  - rewrite nth_error_app2 in Hn by exact Hi.
    destruct (H2 _ nd Hn) as (Ht & Hins). split; [lia |].
    eapply Forall_impl; [| exact Hins]. intros t [Hs | Hp].
    + destruct (Hsrc t Hs) as [Hs' | Hp']; [left; exact Hs' | right].
      apply (produced_before_le _ (List.length ns1)); [exact Hi |].
      apply produced_before_app; [lia | exact Hp'].
    + right.
      replace i with (List.length ns1 + (i - List.length ns1))%nat by lia.
      apply produced_before_shift. exact Hp.
Qed.

Lemma last_cons_any {A} (b d d' : A) (l : list A) : last (b :: l) d = last (b :: l) d'.
Proof.
  revert b; induction l as [| c l IH]; intro b; [reflexivity |].
  change (last (c :: l) d = last (c :: l) d'). apply IH.
Qed.

Lemma last_cons_default {A} (a d : A) (l : list A) : last (a :: l) d = last l a.
Proof.
  destruct l as [| b l]; [reflexivity |].
  change (last (b :: l) d = last (b :: l) a). apply last_cons_any.
Qed.

Lemma last_app_default {A} (d : A) (l1 l2 : list A) :
  last (l1 ++ l2) d = last l2 (last l1 d).
Proof.
  revert d; induction l1 as [| a l1 IH]; intro d; [reflexivity |].
  simpl app. rewrite !last_cons_default. apply IH.
Qed.

Lemma last_output_app (x : Tensor) (ns1 ns2 : list Node) :
  last_output x (ns1 ++ ns2) = last_output (last_output x ns1) ns2.
Proof. unfold last_output. rewrite map_app. apply last_app_default. Qed.

Lemma last_output_snoc (x : Tensor) (ns : list Node) (nd : Node) :
  last_output x (ns ++ [nd]) = node_output nd.
Proof. rewrite last_output_app. reflexivity. Qed.

Lemma last_output_produced (x : Tensor) (ns : list Node) :
  last_output x ns = x \/ produced_before ns (List.length ns) (last_output x ns).
Proof.
  destruct ns as [| n0 ns0] using rev_ind; [left; reflexivity | right].
  rewrite last_output_snoc.
  exists (List.length ns0), n0. repeat split.
  - rewrite length_app; simpl; lia.
  - rewrite nth_error_app2 by lia. rewrite Nat.sub_diag. reflexivity.
Qed.

(** ** Outcome of a chain, of a stage and of a plan *)

Lemma outcome_cons {A} (l : Layer) (ls : list Layer) (r : Error + A) (nd : Node)
    (ns : list Node) :
  node_layer nd = l -> outcome ls r ns -> outcome (l :: ls) r (nd :: ns).
Proof.
  intros Hl H. destruct r as [e | a]; simpl in *.
  - destruct H as (l' & rest & -> & He). exists l', rest. rewrite Hl. auto.
  - rewrite Hl, H. reflexivity.
Qed.

Lemma outcome_app_done {A B} (ls1 ls2 : list Layer) (b : B) (r : Error + A)
    (ns1 ns2 : list Node) :
  outcome ls1 (inr b) ns1 -> outcome ls2 r ns2 -> outcome (ls1 ++ ls2) r (ns1 ++ ns2).
Proof.
  simpl. intros H1 H2. destruct r as [e | a]; simpl in *.
  - destruct H2 as (l & rest & -> & He). exists l, rest.
    rewrite map_app, H1, <- app_assoc. auto.
  - rewrite map_app, H1, H2. reflexivity.
Qed.

Lemma outcome_app_failed {A B} (ls1 ls2 : list Layer) (e : Error) (ns1 : list Node) :
  outcome ls1 (inl e : Error + A) ns1 -> outcome (ls1 ++ ls2) (inl e : Error + B) ns1.
Proof.
  simpl. intros (l & rest & -> & He). exists l, (rest ++ ls2).
  rewrite <- app_assoc. auto.
Qed.

Section Outcomes.

Context {E : Primitives}.

Lemma apply_layer_cases (l : Layer) (ins : list Tensor) (g : Graph) :
  (exists e, run (apply_layer l ins) g = (inl e, g) /\ error_layer e = Some l) \/
  (exists s, run (apply_layer l ins) g =
             (inr (mkTensor (List.length g) s),
              g ++ [mkNode l ins (mkTensor (List.length g) s)])).
Proof.
  unfold run, apply_layer.
  destruct (prim_init g l) as [msg |]; [left; eexists; split; reflexivity |].
  destruct (prim_call g l ins) as [s |].
  - right. exists s. reflexivity.
  - left. eexists; split; reflexivity.
Qed.

(** A chain of layers from [x]: what is in the log afterwards. *)
Lemma sequential_outcome (ls : list Layer) :
  forall x g,
    exists ns,
      snd (run (sequential ls x) g) = g ++ ns /\
      outcome ls (fst (run (sequential ls x) g)) ns /\
      wired (List.length g) (eq x) ns /\
      (forall out, fst (run (sequential ls x) g) = inr out -> out = last_output x ns).
Proof.
  induction ls as [| l ls IH]; intros x g.
  - exists []. simpl. rewrite app_nil_r.
    split; [reflexivity |]. split; [reflexivity |].
    split; [apply wired_nil |].
    intros out H; injection H as <-; reflexivity.
  - simpl sequential. unfold run, bind.
    destruct (apply_layer_cases l [x] g) as [(e & He & Hl) | (s & Hs)];
      unfold run in *.
    + rewrite He. exists []. simpl. rewrite app_nil_r.
      split; [reflexivity |]. split; [exists l, ls; auto |].
      split; [apply wired_nil | discriminate].
    + rewrite Hs.
      destruct (IH (mkTensor (List.length g) s)
                   (g ++ [mkNode l [x] (mkTensor (List.length g) s)]))
        as (ns & Hg & Ho & Hw & Hout).
      unfold run in *.
      exists (mkNode l [x] (mkTensor (List.length g) s) :: ns).
      split; [rewrite Hg, <- app_assoc; reflexivity |].
      split; [apply outcome_cons; [reflexivity | exact Ho] |].
      split.
      * change (wired (List.length g) (eq x)
                  ([mkNode l [x] (mkTensor (List.length g) s)] ++ ns)).
        eapply wired_app.
        -- apply wired_one. intros t [<- | []]; reflexivity.
        -- rewrite length_app in Hw. exact Hw.
        -- intros t <-. right. exists 0%nat, (mkNode l [x] (mkTensor (List.length g) s)).
           simpl. repeat split. lia.
      * intros out H. rewrite (Hout out H).
        unfold last_output. simpl map. rewrite last_cons_default. reflexivity.
Qed.

Lemma build_stage_outcome (s : Stage) (x : Tensor) (g : Graph) :
  exists ns,
    snd (run (build_stage s x) g) = g ++ ns /\
    outcome (stage_layers s) (fst (run (build_stage s x) g)) ns /\
    wired (List.length g) (eq x) ns /\
    (forall out, fst (run (build_stage s x) g) = inr out -> out = last_output x ns).
Proof.
  destruct s as [os | sc mn]; [apply sequential_outcome |].
  simpl build_stage. simpl stage_layers. unfold run, bind.
  destruct (sequential_outcome (ops_layers sc) x g) as (ns1 & Hg1 & Ho1 & Hw1 & Hout1).
  unfold run in *.
  destruct (sequential (ops_layers sc) x g) as [[e | res] g1]; simpl in Hg1, Ho1, Hout1;
    subst g1.
  { exists ns1. split; [reflexivity |].
    split; [apply (outcome_app_failed (A := Tensor)); exact Ho1 |].
    split; [exact Hw1 | discriminate]. }
  specialize (Hout1 res eq_refl).
  destruct (sequential_outcome (ops_layers mn) x (g ++ ns1)) as (ns2 & Hg2 & Ho2 & Hw2 & Hout2).
  unfold run in *. rewrite length_app in Hw2.
  assert (Hw12 : wired (List.length g) (eq x) (ns1 ++ ns2)).
  { eapply wired_app; [exact Hw1 | exact Hw2 |]. intros t Ht; left; exact Ht. }
  destruct (sequential (ops_layers mn) x (g ++ ns1)) as [[e | y] g2]; simpl in Hg2, Ho2, Hout2;
    subst g2.
  { exists (ns1 ++ ns2). split; [apply eq_sym, app_assoc |].
    split; [| split; [exact Hw12 | discriminate]].
    apply (outcome_app_done _ _ res (inl e) _ _ Ho1).
    apply (outcome_app_failed (A := Tensor)); exact Ho2. }
  specialize (Hout2 y eq_refl).
  assert (Ho12 : outcome (ops_layers sc ++ ops_layers mn) (inr y : Error + Tensor) (ns1 ++ ns2))
    by exact (outcome_app_done _ _ res (inr y) _ _ Ho1 Ho2).
  destruct (apply_layer_cases Add [res; y] ((g ++ ns1) ++ ns2))
    as [(e & He & Hl) | (sh & Hs)];
    unfold run in *.
  { rewrite He. exists (ns1 ++ ns2). split; [apply eq_sym, app_assoc |].
    split; [| split; [exact Hw12 | discriminate]].
    simpl in *. exists Add, []. rewrite Ho12, app_assoc. auto. }
  rewrite Hs.
  exists ((ns1 ++ ns2) ++
          [mkNode Add [res; y] (mkTensor (List.length ((g ++ ns1) ++ ns2)) sh)]).
  split; [simpl; rewrite !app_assoc; reflexivity |].
  split; [simpl in *; rewrite map_app, Ho12, app_assoc; reflexivity |].
  split.
  - eapply wired_app; [exact Hw12 | |].
    + rewrite <- app_assoc, <- length_app. apply wired_one. intros t Ht; exact Ht.
    + intros t [<- | [<- | []]].
      * rewrite Hout1.
        destruct (last_output_produced x ns1) as [-> | Hp]; [left; reflexivity | right].
        apply (produced_before_le _ (List.length ns1));
          [rewrite length_app; lia | apply produced_before_app; [lia | exact Hp]].
      * rewrite Hout2.
        destruct (last_output_produced x ns2) as [-> | Hp]; [left; reflexivity | right].
        rewrite length_app. apply produced_before_shift. exact Hp.
  - simpl. intros out H; injection H as <-. rewrite last_output_snoc. reflexivity.
Qed.

Lemma build_plan_outcome (p : Plan) :
  forall x g,
    exists ns,
      snd (run (build_plan p x) g) = g ++ ns /\
      outcome (plan_layers p) (fst (run (build_plan p x) g)) ns /\
      wired (List.length g) (eq x) ns /\
      (forall out, fst (run (build_plan p x) g) = inr out -> out = last_output x ns).
Proof.
  induction p as [| s p IH]; intros x g.
  - exists []. simpl. rewrite app_nil_r.
    split; [reflexivity |]. split; [reflexivity |].
    split; [apply wired_nil |].
    intros out H; injection H as <-; reflexivity.
  - simpl build_plan. simpl plan_layers. unfold run, bind.
    destruct (build_stage_outcome s x g) as (ns1 & Hg1 & Ho1 & Hw1 & Hout1).
    unfold run in *.
    destruct (build_stage s x g) as [[e | y] g1]; simpl in Hg1, Ho1, Hout1; subst g1.
    { exists ns1. split; [reflexivity |].
      split; [apply (outcome_app_failed (A := Tensor)); exact Ho1 |].
      split; [exact Hw1 | discriminate]. }
    specialize (Hout1 y eq_refl).
    destruct (IH y (g ++ ns1)) as (ns2 & Hg2 & Ho2 & Hw2 & Hout2).
    unfold run in *. rewrite length_app in Hw2.
    exists (ns1 ++ ns2). split; [rewrite Hg2; apply eq_sym, app_assoc |].
    split; [exact (outcome_app_done _ _ y _ _ _ Ho1 Ho2) |].
    split.
    + eapply wired_app; [exact Hw1 | exact Hw2 |].
      intros t <-. rewrite Hout1.
      destruct (last_output_produced x ns1) as [H | H];
        [left; symmetry; exact H | right; exact H].
    + intros out H. rewrite (Hout2 out H), last_output_app, <- Hout1. reflexivity.
Qed.

End Outcomes.

Lemma wired_last_tid (n : nat) (src : Tensor -> Prop) (x : Tensor) (ns : list Node) :
  wired n src ns -> ns <> [] ->
  tid (last_output x ns) = (n + (List.length ns - 1))%nat.
Proof.
  intros Hw Hne.
  destruct (exists_last Hne) as (ns' & nd & ->).
  rewrite last_output_snoc, length_app. simpl.
  replace (List.length ns' + 1 - 1)%nat with (List.length ns') by lia.
  apply (Hw (List.length ns') nd).
  rewrite nth_error_app2 by lia. rewrite Nat.sub_diag. reflexivity.
Qed.

Lemma outcome_length {A} (ls : list Layer) (r : Error + A) (ns : list Node) :
  outcome ls r ns ->
  match r with
  | inr _ => List.length ns = List.length ls
  | inl _ => (List.length ns < List.length ls)%nat
  end.
Proof.
  destruct r as [e | a]; simpl.
  - intros (l & rest & -> & _). rewrite length_app, length_map. simpl. lia.
  - intros <-. symmetry. apply length_map.
Qed.

Lemma error_layer_not_value_error (e : Error) (l : Layer) :
  error_layer e = Some l -> forall msg, e <> ValueError msg.
Proof. intros H msg ->. discriminate H. Qed.

(** What a plan of [k + 1] layers leaves in the log. *)
Lemma build_plan_report {E : Primitives} (p : Plan) (k : nat) (x : Tensor) (g : Graph) :
  List.length (plan_layers p) = S k ->
  exists ns,
    snd (run (build_plan p x) g) = g ++ ns /\
    wired (List.length g) (eq x) ns /\
    match fst (run (build_plan p x) g) with
    | inr out =>
        map node_layer ns = plan_layers p /\
        out = last_output x ns /\
        tid out = (List.length g + k)%nat
    | inl e =>
        (exists l rest,
            plan_layers p = map node_layer ns ++ l :: rest /\ error_layer e = Some l) /\
        (List.length ns <= k)%nat /\
        forall msg, e <> ValueError msg
    end.
Proof.
  intro Hk.
  destruct (build_plan_outcome p x g) as (ns & Hg & Ho & Hw & Hout).
  exists ns. split; [exact Hg |]. split; [exact Hw |].
  pose proof (outcome_length _ _ _ Ho) as Hlen.
  destruct (fst (run (build_plan p x) g)) as [e | out].
  - split; [exact Ho |]. split; [lia |].
    destruct Ho as (l & rest & _ & He). exact (error_layer_not_value_error e l He).
  - split; [exact Ho |]. split; [exact (Hout out eq_refl) |].
    rewrite (Hout out eq_refl), (wired_last_tid _ _ x ns Hw).
    + rewrite Hlen, Hk. f_equal. lia.
    + intros ->. simpl in Hlen. lia.
Qed.

(** ** Outcomes of the source functions *)

(** X1.  Whatever the layer primitives do, [entry_flow] only appends to the log:
    every constructor and every call may raise or not, and a call may return
    any shape, each depending on the layer, its operands and the log so far.
    When the flow returns, it has built the 36 layers of its plan and its
    result is the output of the last one, whose id is that node's position in
    the log.  When it raises, the error is that of the primitive of the first
    layer not built (never the module's [ValueError]), the layers before it
    are in the log and none after it.  Each appended node sits at the next
    position of the log and consumes only the flow input or outputs of nodes
    appended before it. *)
Theorem entry_flow_outcome {E : Primitives} (x : Tensor) (g : Graph) :
  exists ns,
    snd (run (entry_flow x) g) = g ++ ns /\
    wired (List.length g) (eq x) ns /\
    match fst (run (entry_flow x) g) with
    | inr out =>
        map node_layer ns = plan_layers entry_plan /\
        out = last_output x ns /\
        tid out = (List.length g + 35)%nat
    | inl e =>
        (exists l rest,
            plan_layers entry_plan = map node_layer ns ++ l :: rest /\
            error_layer e = Some l) /\
        (List.length ns <= 35)%nat /\
        forall msg, e <> ValueError msg
    end.
Proof.
  rewrite (entry_flow_plan x g). apply build_plan_report. reflexivity.
Qed.

(** X2.  Whatever the layer primitives do, [middle_flow] only appends to the log:
    every constructor and every call may raise or not, and a call may return
    any shape, each depending on the layer, its operands and the log so far.
    When the flow returns, it has built the 80 layers of its plan and its
    result is the output of the last one, whose id is that node's position in
    the log.  When it raises, the error is that of the primitive of the first
    layer not built (never the module's [ValueError]), the layers before it
    are in the log and none after it.  Each appended node sits at the next
    position of the log and consumes only the flow input or outputs of nodes
    appended before it. *)
Theorem middle_flow_outcome {E : Primitives} (x : Tensor) (g : Graph) :
  exists ns,
    snd (run (middle_flow x) g) = g ++ ns /\
    wired (List.length g) (eq x) ns /\
    match fst (run (middle_flow x) g) with
    | inr out =>
        map node_layer ns = plan_layers middle_plan /\
        out = last_output x ns /\
        tid out = (List.length g + 79)%nat
    | inl e =>
        (exists l rest,
            plan_layers middle_plan = map node_layer ns ++ l :: rest /\
            error_layer e = Some l) /\
        (List.length ns <= 79)%nat /\
        forall msg, e <> ValueError msg
    end.
Proof.
  rewrite (middle_flow_plan x g). apply build_plan_report. reflexivity.
Qed.

(** X3.  Whatever the layer primitives do, [exit_flow] only appends to the log:
    every constructor and every call may raise or not, and a call may return
    any shape, each depending on the layer, its operands and the log so far.
    When the flow returns, it has built the 21 layers of its plan and its
    result is the output of the last one, whose id is that node's position in
    the log.  When it raises, the error is that of the primitive of the first
    layer not built (never the module's [ValueError]), the layers before it
    are in the log and none after it.  Each appended node sits at the next
    position of the log and consumes only the flow input or outputs of nodes
    appended before it. *)
Theorem exit_flow_outcome {E : Primitives} (x : Tensor) (g : Graph) :
  exists ns,
    snd (run (exit_flow x) g) = g ++ ns /\
    wired (List.length g) (eq x) ns /\
    match fst (run (exit_flow x) g) with
    | inr out =>
        map node_layer ns = plan_layers exit_plan /\
        out = last_output x ns /\
        tid out = (List.length g + 20)%nat
    | inl e =>
        (exists l rest,
            plan_layers exit_plan = map node_layer ns ++ l :: rest /\
            error_layer e = Some l) /\
        (List.length ns <= 20)%nat /\
        forall msg, e <> ValueError msg
    end.
Proof.
  rewrite (exit_flow_plan x g). apply build_plan_report. reflexivity.
Qed.

(** X4.  Whatever the layer primitives do, the module-level build only
    appends to the log: every constructor and every call may raise or not,
    and a call may return any shape, each depending on the layer, its
    operands and the log so far.  When the build returns, it has built the
    placeholder and then the 137 layers of the three flows; the model's input
    is the placeholder's output, its output the output of the last node, and
    its name "Xception".  When it raises, the error is that of the primitive
    of the first layer not built (never the module's [ValueError]) and the
    layers before it are in the log.  Every node consumes only outputs of
    nodes this build appended before it: the build reads nothing from the log
    it starts from. *)
Theorem model_outcome {E : Primitives} (g : Graph) :
  exists ns,
    snd (run model g) = g ++ ns /\
    wired (List.length g) (fun _ => False) ns /\
    match fst (run model g) with
    | inr m =>
        map node_layer ns = Input [299; 299; 3] :: plan_layers network_plan /\
        name m = "Xception" /\
        hd_error ns = Some (mkNode (Input [299; 299; 3]) [] (inputs m)) /\
        outputs m = last_output (inputs m) ns /\
        tid (inputs m) = List.length g /\
        tid (outputs m) = (List.length g + 137)%nat
    | inl e =>
        (exists l rest,
            Input [299; 299; 3] :: plan_layers network_plan = map node_layer ns ++ l :: rest /\
            error_layer e = Some l) /\
        (List.length ns <= 137)%nat /\
        forall msg, e <> ValueError msg
    end.
Proof.
  rewrite (model_plan g). unfold run, bind.
  destruct (apply_layer_cases (Input [299; 299; 3]) [] g) as [(e & He & Hl) | (s & Hs)];
    unfold run in *.
  - rewrite He. exists []. cbn [fst snd]. rewrite app_nil_r.
    split; [reflexivity |]. split; [apply wired_nil |].
    split; [exists (Input [299; 299; 3]), (plan_layers network_plan); auto |].
    split; [cbn [List.length]; lia | exact (error_layer_not_value_error e _ Hl)].
  - rewrite Hs.
    set (x0 := mkTensor (List.length g) s).
    set (nd0 := mkNode (Input [299; 299; 3]) [] x0).
    destruct (build_plan_report network_plan 136 x0 (g ++ [nd0]) eq_refl)
      as (ns & Hg & Hw & Hr).
    unfold run in *. exists (nd0 :: ns).
    assert (Hw0 : wired (List.length g) (fun _ => False) (nd0 :: ns)).
    { change (nd0 :: ns) with ([nd0] ++ ns).
      eapply wired_app.
      - apply wired_one. intros t [].
      - rewrite length_app in Hw. exact Hw.
      - intros t <-. right. exists 0%nat, nd0. repeat split. cbn [List.length]. lia. }
    destruct (build_plan network_plan x0 (g ++ [nd0])) as [[e | out] g1];
      cbn [fst snd] in *; subst g1.
    + split; [rewrite <- app_assoc; reflexivity |]. split; [exact Hw0 |].
      destruct Hr as ((l & rest & Hl & He) & Hlen & Hne).
      split; [exists l, rest; split; [cbn [map]; rewrite Hl; reflexivity | exact He] |].
      split; [cbn [List.length]; lia | exact Hne].
    + unfold ret. cbn [fst snd]. destruct Hr as (Hl & Hout & Htid).
      split; [rewrite <- app_assoc; reflexivity |]. split; [exact Hw0 |].
      split; [cbn [map]; rewrite Hl; reflexivity |].
      split; [reflexivity |]. split; [reflexivity |].
      split.
      { cbn [outputs inputs]. rewrite Hout. unfold last_output. cbn [map].
        rewrite last_cons_default. reflexivity. }
      split; [reflexivity |].
      cbn [outputs]. rewrite Htid, length_app. cbn [List.length]. lia.
Qed.

(** X5.  Whatever the layer primitives do, [convolutional_unit] only appends
    to the log, at most four nodes: every constructor and every call may
    raise or not, and a call may return any shape, each depending on the
    layer, its operands and the log so far.  The unit returns only for a
    supported [conv_layer], and then its result is the output of the last of
    the two to four nodes it appended, whose id is that node's position in the
    log.  When it raises on a supported [conv_layer], the layers of its
    pipeline before the one whose primitive raised are in the log, and none
    after it; on an unsupported [conv_layer] nothing is appended. *)
Theorem convolutional_unit_outcome {E : Primitives} (x : Tensor) (nf : Z) (ks : Z * Z)
    (st : option (Z * Z)) (pre post : option bool) (cl : option string) (g : Graph) :
  exists ns,
    snd (run (convolutional_unit x nf ks st pre post cl) g) = g ++ ns /\
    wired (List.length g) (eq x) ns /\
    (List.length ns <= 4)%nat /\
    match fst (run (convolutional_unit x nf ks st pre post cl) g) with
    | inr out =>
        In (kwarg "Conv2D" cl) supported /\
        (2 <= List.length ns)%nat /\
        out = last_output x ns /\
        tid out = (List.length g + (List.length ns - 1))%nat
    | inl e =>
        (~ In (kwarg "Conv2D" cl) supported /\ ns = []) \/
        (In (kwarg "Conv2D" cl) supported /\
         exists l rest,
           unit_layers (kwarg false pre)
                       (conv_of (variant_of (kwarg "Conv2D" cl)) nf ks (kwarg (1, 1) st))
                       (kwarg true post)
           = map node_layer ns ++ l :: rest /\
           error_layer e = Some l)
    end.
Proof.
  destruct (str_in (kwarg "Conv2D" cl) supported) eqn:Hb.
  - apply str_in_supported in Hb.
    rewrite (convolutional_unit_sequential x nf ks st pre post cl Hb g).
    set (ls := unit_layers _ _ _).
    assert (Hls : (2 <= List.length ls <= 4)%nat).
    { subst ls. unfold unit_layers. rewrite !length_app.
      destruct (kwarg false pre), (kwarg true post); cbn [relu_if List.length]; lia. }
    destruct (sequential_outcome ls x g) as (ns & Hg & Ho & Hw & Hout).
    exists ns. split; [exact Hg |]. split; [exact Hw |].
    pose proof (outcome_length _ _ _ Ho) as Hlen.
    destruct (fst (run (sequential ls x) g)) as [e | out].
    + split; [lia |]. right. split; [exact Hb | exact Ho].
    + split; [lia |]. split; [exact Hb |]. split; [lia |].
      split; [exact (Hout out eq_refl) |].
      rewrite (Hout out eq_refl). apply (wired_last_tid _ _ x ns Hw).
      intros ->. cbn [List.length] in Hlen. lia.
  - assert (Hn : ~ In (kwarg "Conv2D" cl) supported).
    { intro H. apply str_in_supported in H. congruence. }
    exists []. unfold run, convolutional_unit. unfold supported in Hb. rewrite Hb.
    cbn [negb fst snd raise]. rewrite app_nil_r.
    split; [reflexivity |]. split; [apply wired_nil |].
    split; [cbn [List.length]; lia |]. left. split; [exact Hn | reflexivity].
Qed.

(** ** No node is left unused *)

Lemma consumed_later_app_l (ns1 ns2 : list Node) (i : nat) (t : Tensor) :
  consumed_later ns1 i t -> consumed_later (ns1 ++ ns2) i t.
Proof.
  intros (j & nd & Hj & Hn & Hin). exists j, nd. repeat split; auto.
  rewrite nth_error_app1; [exact Hn |].
  apply nth_error_Some. rewrite Hn. discriminate.
Qed.

Lemma consumed_later_app_r (ns1 ns2 : list Node) (i : nat) (t : Tensor) :
  consumed_later ns2 i t -> consumed_later (ns1 ++ ns2) (List.length ns1 + i) t.
Proof.
  intros (j & nd & Hj & Hn & Hin).
  exists (List.length ns1 + j)%nat, nd. repeat split; [lia | | exact Hin].
  rewrite nth_error_app2 by lia.
  replace (List.length ns1 + j - List.length ns1)%nat with j by lia. exact Hn.
Qed.

Lemma feeds_consumed_later (ns1 ns2 : list Node) (i : nat) (t : Tensor) :
  (i < List.length ns1)%nat -> feeds ns2 t -> consumed_later (ns1 ++ ns2) i t.
Proof.
  intros Hi (nd & Hnd & Hin).
  apply In_nth_error in Hnd as (j & Hj).
  exists (List.length ns1 + j)%nat, nd. repeat split; [lia | | exact Hin].
  rewrite nth_error_app2 by lia.
  replace (List.length ns1 + j - List.length ns1)%nat with j by lia. exact Hj.
Qed.

Lemma feeds_app_l (ns1 ns2 : list Node) (t : Tensor) :
  feeds ns1 t -> feeds (ns1 ++ ns2) t.
Proof. intros (nd & Hnd & Hin). exists nd. split; [apply in_or_app; left |]; assumption. Qed.

Lemma feeds_app_r (ns1 ns2 : list Node) (t : Tensor) :
  feeds ns2 t -> feeds (ns1 ++ ns2) t.
Proof. intros (nd & Hnd & Hin). exists nd. split; [apply in_or_app; right |]; assumption. Qed.

Lemma all_used_nil (final : Tensor -> Prop) : all_used [] final.
Proof. intros i nd H. destruct i; discriminate H. Qed.

Lemma all_used_one (nd : Node) : all_used [nd] (eq (node_output nd)).
Proof.
  intros i nd' H. destruct i as [| i]; [| destruct i; discriminate H].
  injection H as <-. left; reflexivity.
Qed.

(** Two runs of nodes one after the other: what the first delivers must be
    a result of the whole or an operand of a node of the second. *)
Lemma all_used_app (ns1 ns2 : list Node) (F1 F2 F : Tensor -> Prop) :
  all_used ns1 F1 -> all_used ns2 F2 ->
  (forall t, F1 t -> F t \/ feeds ns2 t) ->
  (forall t, F2 t -> F t) ->
  all_used (ns1 ++ ns2) F.
Proof.
  intros H1 H2 HF1 HF2 i nd Hn.
  destruct (Nat.lt_ge_cases i (List.length ns1)) as [Hi | Hi].
  - rewrite nth_error_app1 in Hn by exact Hi.
    destruct (H1 i nd Hn) as [Hf | Hc].
    + destruct (HF1 _ Hf) as [Hf' | Hfeed]; [left; exact Hf' | right].
      apply feeds_consumed_later; assumption.
    + right. apply consumed_later_app_l. exact Hc.
  - rewrite nth_error_app2 in Hn by exact Hi.
    destruct (H2 _ nd Hn) as [Hf | Hc]; [left; apply HF2; exact Hf | right].
    replace i with (List.length ns1 + (i - List.length ns1))%nat by lia.
    apply consumed_later_app_r. exact Hc.
Qed.

Section Used.

Context {E : Primitives}.

Lemma sequential_used (ls : list Layer) :
  forall x g,
    exists ns,
      snd (run (sequential ls x) g) = g ++ ns /\
      match fst (run (sequential ls x) g) with
      | inr out => all_used ns (eq out) /\ (ns = [] /\ out = x \/ feeds ns x)
      | inl _ => True
      end.
Proof.
  induction ls as [| l ls IH]; intros x g.
  - exists []. cbn [sequential run ret fst snd]. rewrite app_nil_r.
    split; [reflexivity |]. split; [apply all_used_nil | left; auto].
  - cbn [sequential]. unfold run, bind.
    destruct (apply_layer_cases l [x] g) as [(e & He & Hl) | (s & Hs)];
      unfold run in *.
    + rewrite He. exists []. cbn [fst snd]. rewrite app_nil_r. auto.
    + rewrite Hs.
      set (t0 := mkTensor (List.length g) s). set (nd0 := mkNode l [x] t0).
      destruct (IH t0 (g ++ [nd0])) as (ns & Hg & Hr). unfold run in *.
      exists ([nd0] ++ ns). split; [rewrite Hg, <- app_assoc; reflexivity |].
      destruct (fst (sequential ls t0 (g ++ [nd0]))) as [e | out]; [exact I |].
      destruct Hr as (Hu & Hx). split.
      * eapply all_used_app; [apply (all_used_one nd0) | exact Hu | | auto].
        cbn [nd0 node_output]. intros t <-.
        destruct Hx as [(_ & ->) | Hf]; [left; reflexivity | right; exact Hf].
      * right. exists nd0. split; [left; reflexivity | left; reflexivity].
Qed.

Lemma build_stage_used (s : Stage) (x : Tensor) (g : Graph) :
  exists ns,
    snd (run (build_stage s x) g) = g ++ ns /\
    match fst (run (build_stage s x) g) with
    | inr out => all_used ns (eq out) /\ (ns = [] /\ out = x \/ feeds ns x)
    | inl _ => True
    end.
Proof.
  destruct s as [os | sc mn]; [apply sequential_used |].
  cbn [build_stage]. unfold run, bind.
  destruct (sequential_used (ops_layers sc) x g) as (ns1 & Hg1 & Hr1). unfold run in *.
  destruct (sequential (ops_layers sc) x g) as [[e | res] g1]; cbn [fst snd] in *; subst g1.
  { exists ns1. auto. }
  destruct (sequential_used (ops_layers mn) x (g ++ ns1)) as (ns2 & Hg2 & Hr2).
  unfold run in *.
  destruct (sequential (ops_layers mn) x (g ++ ns1)) as [[e | y] g2]; cbn [fst snd] in *;
    subst g2.
  { exists (ns1 ++ ns2). split; [apply eq_sym, app_assoc | exact I]. }
  destruct (apply_layer_cases Add [res; y] ((g ++ ns1) ++ ns2))
    as [(e & He & Hl) | (sh & Hs)]; unfold run in *.
  { rewrite He. exists (ns1 ++ ns2). split; [apply eq_sym, app_assoc | exact I]. }
  rewrite Hs.
  set (out := mkTensor (List.length ((g ++ ns1) ++ ns2)) sh).
  set (ndA := mkNode Add [res; y] out).
  exists ((ns1 ++ ns2) ++ [ndA]). cbn [fst snd].
  split; [rewrite !app_assoc; reflexivity |].
  destruct Hr1 as (Hu1 & Hx1). destruct Hr2 as (Hu2 & Hx2).
  split.
  - eapply (all_used_app _ _ (fun t => res = t \/ y = t)).
    + eapply all_used_app; [exact Hu1 | exact Hu2 | |].
      * intros t Ht. left; left; exact Ht.
      * intros t Ht. right; exact Ht.
    + apply (all_used_one ndA).
    + intros t Ht. right. exists ndA. split; [left; reflexivity |].
      cbn [ndA node_inputs]. destruct Ht as [<- | <-]; [left | right; left]; reflexivity.
    + auto.
  - right. destruct Hx1 as [(_ & ->) | Hf].
    + apply feeds_app_r. exists ndA. split; left; reflexivity.
    + apply feeds_app_l, feeds_app_l. exact Hf.
Qed.

Lemma build_plan_used (p : Plan) :
  forall x g,
    exists ns,
      snd (run (build_plan p x) g) = g ++ ns /\
      match fst (run (build_plan p x) g) with
      | inr out => all_used ns (eq out) /\ (ns = [] /\ out = x \/ feeds ns x)
      | inl _ => True
      end.
Proof.
  induction p as [| s p IH]; intros x g.
  - exists []. cbn [build_plan run ret fst snd]. rewrite app_nil_r.
    split; [reflexivity |]. split; [apply all_used_nil | left; auto].
  - cbn [build_plan]. unfold run, bind.
    destruct (build_stage_used s x g) as (ns1 & Hg1 & Hr1). unfold run in *.
    destruct (build_stage s x g) as [[e | y] g1]; cbn [fst snd] in *; subst g1.
    { exists ns1. auto. }
    destruct (IH y (g ++ ns1)) as (ns2 & Hg2 & Hr2). unfold run in *.
    exists (ns1 ++ ns2). split; [rewrite Hg2; apply eq_sym, app_assoc |].
    destruct (fst (build_plan p y (g ++ ns1))) as [e | out]; [exact I |].
    destruct Hr1 as (Hu1 & Hx1). destruct Hr2 as (Hu2 & Hx2). split.
    + eapply all_used_app; [exact Hu1 | exact Hu2 | | auto].
      intros t <-. destruct Hx2 as [(_ & ->) | Hf]; [left; reflexivity | right; exact Hf].
    + destruct Hx1 as [(-> & ->) | Hf].
      * destruct Hx2 as [(-> & ->) | Hf2]; [left; auto | right; exact Hf2].
      * right. apply feeds_app_l. exact Hf.
Qed.

End Used.

Lemma feeds_nonempty (ns : list Node) (x out : Tensor) (k : nat) :
  List.length ns = S k -> ns = [] /\ out = x \/ feeds ns x -> feeds ns x.
Proof. intros Hk [(-> & _) | H]; [discriminate Hk | exact H]. Qed.

(** X6.  When [entry_flow], [middle_flow] or [exit_flow] returns, no node
    it appended is left unused: the output of each is an operand of a node
    appended after it, except the result of the flow; and the flow input is
    an operand of one of the appended nodes. *)
Theorem flows_use_every_node {E : Engine} (x : Tensor) (g : Graph) :
  (exists ns,
      snd (run (entry_flow x) g) = g ++ ns /\
      match fst (run (entry_flow x) g) with
      | inr out => all_used ns (eq out) /\ feeds ns x
      | inl _ => True
      end) /\
  (exists ns,
      snd (run (middle_flow x) g) = g ++ ns /\
      match fst (run (middle_flow x) g) with
      | inr out => all_used ns (eq out) /\ feeds ns x
      | inl _ => True
      end) /\
  (exists ns,
      snd (run (exit_flow x) g) = g ++ ns /\
      match fst (run (exit_flow x) g) with
      | inr out => all_used ns (eq out) /\ feeds ns x
      | inl _ => True
      end).
Proof.
  assert (H : forall p k,
             List.length (plan_layers p) = S k ->
             exists ns,
               snd (run (build_plan p x) g) = g ++ ns /\
               match fst (run (build_plan p x) g) with
               | inr out => all_used ns (eq out) /\ feeds ns x
               | inl _ => True
               end).
  { intros p k Hk.
    destruct (build_plan_used p x g) as (ns & Hg & Hr).
    destruct (build_plan_outcome p x g) as (ns' & Hg' & Ho & _).
    rewrite Hg in Hg'. apply app_inv_head in Hg'. subst ns'.
    exists ns. split; [exact Hg |].
    destruct (fst (run (build_plan p x) g)) as [e | out]; [exact I |].
    destruct Hr as (Hu & Hx). split; [exact Hu |].
    apply (feeds_nonempty ns x out k); [| exact Hx].
    cbn [outcome] in Ho. rewrite <- Hk, <- Ho. symmetry. apply length_map. }
  split; [| split].
  - rewrite (entry_flow_plan x g). apply (H entry_plan 35%nat). reflexivity.
  - rewrite (middle_flow_plan x g). apply (H middle_plan 79%nat). reflexivity.
  - rewrite (exit_flow_plan x g). apply (H exit_plan 20%nat). reflexivity.
Qed.

(** X7.  When the module-level build returns, no node of the model is left
    unused: the output of each node is an operand of a node appended after
    it, except the model's output; and the placeholder, the model's input, is
    an operand of one of them. *)
Theorem model_uses_every_node {E : Engine} (g : Graph) :
  exists ns,
    snd (run model g) = g ++ ns /\
    match fst (run model g) with
    | inr m => all_used ns (eq (outputs m)) /\ feeds ns (inputs m)
    | inl _ => True
    end.
Proof.
  rewrite (model_plan g). unfold run, bind.
  destruct (apply_layer_cases (Input [299; 299; 3]) [] g) as [(e & He & Hl) | (s & Hs)];
    unfold run in *.
  - rewrite He. exists []. cbn [fst snd]. rewrite app_nil_r. auto.
  - rewrite Hs.
    set (x0 := mkTensor (List.length g) s).
    set (nd0 := mkNode (Input [299; 299; 3]) [] x0).
    destruct (build_plan_used network_plan x0 (g ++ [nd0])) as (ns & Hg & Hr).
    destruct (build_plan_outcome network_plan x0 (g ++ [nd0])) as (ns' & Hg' & Ho & _).
    rewrite Hg in Hg'. apply app_inv_head in Hg'. subst ns'.
    unfold run in *. exists ([nd0] ++ ns).
    destruct (build_plan network_plan x0 (g ++ [nd0])) as [[e | out] g1];
      cbn [fst snd] in *; subst g1.
    + split; [rewrite <- app_assoc; reflexivity | exact I].
    + unfold ret. cbn [fst snd outputs inputs]. destruct Hr as (Hu & Hx).
      split; [rewrite <- app_assoc; reflexivity |].
      assert (Hf : feeds ns x0).
      { apply (feeds_nonempty ns x0 out 136%nat); [| exact Hx].
        rewrite <- (length_map node_layer), Ho. reflexivity. }
      split.
      * eapply all_used_app; [apply (all_used_one nd0) | exact Hu | | auto].
        cbn [nd0 node_output]. intros t <-. right; exact Hf.
      * apply feeds_app_r. exact Hf.
Qed.

(** X8.  [separable_convolutional_unit] cannot trip the guard of
    [convolutional_unit]: whatever the flags and the layer primitives (every
    constructor and every call may raise or not, and a call may return any
    shape, each depending on the layer, its operands and the log so far), it
    never raises the module's [ValueError].  When it returns it has appended
    relu if [pre_activation], a 3x3 stride-1 separable convolution, a
    normalization and relu if [post_activation], and its result is the output
    of the last of them; when it raises, the layers before the one whose
    primitive raised are in the log and none after it. *)
Theorem separable_convolutional_unit_outcome {E : Primitives} (x : Tensor) (nf : Z)
    (pre post : option bool) (g : Graph) :
  let pipeline :=
    relu_if (kwarg true pre)
    ++ [SeparableConv2D nf (3, 3) (1, 1) "same" false; BatchNormalization]
    ++ relu_if (kwarg false post) in
  exists ns,
    snd (run (separable_convolutional_unit x nf pre post) g) = g ++ ns /\
    wired (List.length g) (eq x) ns /\
    match fst (run (separable_convolutional_unit x nf pre post) g) with
    | inr out =>
        map node_layer ns = pipeline /\
        out = last_output x ns /\
        tid out = (List.length g + (List.length ns - 1))%nat
    | inl e =>
        (exists l rest, pipeline = map node_layer ns ++ l :: rest /\ error_layer e = Some l) /\
        forall msg, e <> ValueError msg
    end.
Proof.
  intro pipeline.
  rewrite (separable_convolutional_unit_sequential x nf pre post g).
  change (op_layers (SepConvUnit nf (kwarg true pre) (kwarg false post))) with pipeline.
  destruct (sequential_outcome pipeline x g) as (ns & Hg & Ho & Hw & Hout).
  exists ns. split; [exact Hg |]. split; [exact Hw |].
  pose proof (outcome_length _ _ _ Ho) as Hlen.
  destruct (fst (run (sequential pipeline x) g)) as [e | out].
  - split; [exact Ho |].
    destruct Ho as (l & rest & _ & He). exact (error_layer_not_value_error e l He).
  - split; [exact Ho |]. split; [exact (Hout out eq_refl) |].
    rewrite (Hout out eq_refl). apply (wired_last_tid _ _ x ns Hw).
    intros ->. subst pipeline. rewrite !length_app in Hlen. cbn [List.length] in Hlen. lia.
Qed.

(** ** The outcomes at concrete inputs *)

(** With primitives that refuse a second normalization, [entry_flow] raises
    at the normalization of its second unit, with four nodes in the log. *)
Lemma entry_flow_outcome_witness :
  run (entry_flow (E := one_normalization) (mkTensor 0 [None; Some 299; Some 299; Some 3])) [] =
    (inl (ShapeError BatchNormalization [[None; Some 150; Some 150; Some 64]]),
     [mkNode (Conv2D 32 (3, 3) (2, 2) "same" false)
             [mkTensor 0 [None; Some 299; Some 299; Some 3]]
             (mkTensor 0 [None; Some 150; Some 150; Some 32]);
      mkNode BatchNormalization [mkTensor 0 [None; Some 150; Some 150; Some 32]]
             (mkTensor 1 [None; Some 150; Some 150; Some 32]);
      mkNode (Activation "relu") [mkTensor 1 [None; Some 150; Some 150; Some 32]]
             (mkTensor 2 [None; Some 150; Some 150; Some 32]);
      mkNode (Conv2D 64 (3, 3) (1, 1) "same" false)
             [mkTensor 2 [None; Some 150; Some 150; Some 32]]
             (mkTensor 3 [None; Some 150; Some 150; Some 64])]) /\
  exists ns,
    snd (run (entry_flow (E := one_normalization)
                (mkTensor 0 [None; Some 299; Some 299; Some 3])) []) = [] ++ ns /\
    wired 0 (eq (mkTensor 0 [None; Some 299; Some 299; Some 3])) ns /\
    (exists l rest,
        plan_layers entry_plan = map node_layer ns ++ l :: rest /\
        Some BatchNormalization = Some l) /\
    (List.length ns <= 35)%nat /\
    forall msg,
      ShapeError BatchNormalization [[None; Some 150; Some 150; Some 64]] <> ValueError msg.
Proof.
  split; [reflexivity |].
  destruct (entry_flow_outcome (E := one_normalization)
              (mkTensor 0 [None; Some 299; Some 299; Some 3]) [])
    as (ns & H1 & H2 & H3).
  exists ns. split; [exact H1 |]. split; [exact H2 | exact H3].
Defined.

(** With an addition that broadcasts, [middle_flow] returns on an input of
    one channel, after its 80 layers. *)
Lemma middle_flow_outcome_witness :
  fst (run (middle_flow (E := broadcasting) (mkTensor 0 [None; Some 19; Some 19; Some 1])) []) =
    inr (mkTensor 79 [None; Some 19; Some 19; Some 728]) /\
  exists ns,
    snd (run (middle_flow (E := broadcasting) (mkTensor 0 [None; Some 19; Some 19; Some 1])) [])
    = [] ++ ns /\
    wired 0 (eq (mkTensor 0 [None; Some 19; Some 19; Some 1])) ns /\
    map node_layer ns = plan_layers middle_plan /\
    mkTensor 79 [None; Some 19; Some 19; Some 728]
    = last_output (mkTensor 0 [None; Some 19; Some 19; Some 1]) ns /\
    79%nat = (0 + 79)%nat.
Proof.
  split; [reflexivity |].
  destruct (middle_flow_outcome (E := broadcasting)
              (mkTensor 0 [None; Some 19; Some 19; Some 1]) [])
    as (ns & H1 & H2 & H3).
  exists ns. split; [exact H1 |]. split; [exact H2 | exact H3].
Defined.

(** With constructors that refuse the invalid layers and calls that follow
    the shape rule, [exit_flow] returns on an input of 728 channels. *)
Lemma exit_flow_outcome_witness :
  fst (run (exit_flow (E := strict) (mkTensor 0 [None; Some 19; Some 19; Some 728])) []) =
    inr (mkTensor 20 [None; Some 1000]) /\
  exists ns,
    snd (run (exit_flow (E := strict) (mkTensor 0 [None; Some 19; Some 19; Some 728])) [])
    = [] ++ ns /\
    wired 0 (eq (mkTensor 0 [None; Some 19; Some 19; Some 728])) ns /\
    map node_layer ns = plan_layers exit_plan /\
    mkTensor 20 [None; Some 1000]
    = last_output (mkTensor 0 [None; Some 19; Some 19; Some 728]) ns /\
    20%nat = (0 + 20)%nat.
Proof.
  split; [reflexivity |].
  destruct (exit_flow_outcome (E := strict)
              (mkTensor 0 [None; Some 19; Some 19; Some 728]) [])
    as (ns & H1 & H2 & H3).
  exists ns. split; [exact H1 |]. split; [exact H2 | exact H3].
Defined.

(** With primitives that refuse a second normalization, the build of the
    model raises after the placeholder and four nodes of [entry_flow]. *)
Lemma model_outcome_witness :
  fst (run (model (E := one_normalization)) []) =
    inl (ShapeError BatchNormalization [[None; Some 150; Some 150; Some 64]]) /\
  exists ns,
    snd (run (model (E := one_normalization)) []) = [] ++ ns /\
    wired 0 (fun _ => False) ns /\
    (exists l rest,
        Input [299; 299; 3] :: plan_layers network_plan = map node_layer ns ++ l :: rest /\
        Some BatchNormalization = Some l) /\
    (List.length ns <= 137)%nat /\
    forall msg,
      ShapeError BatchNormalization [[None; Some 150; Some 150; Some 64]] <> ValueError msg.
Proof.
  split; [reflexivity |].
  destruct (model_outcome (E := one_normalization) []) as (ns & H1 & H2 & H3).
  exists ns. split; [exact H1 |]. split; [exact H2 | exact H3].
Defined.

(** Filters refused by the constructor after the pre-activation was built. *)
Lemma convolutional_unit_outcome_witness :
  run (convolutional_unit (E := strict) (mkTensor 0 [None; Some 299; Some 299; Some 3])
         (-1) (3, 3) None (Some true) None None) [] =
    (inl (LayerError (Conv2D (-1) (3, 3) (1, 1) "same" false) "invalid argument"),
     [mkNode (Activation "relu") [mkTensor 0 [None; Some 299; Some 299; Some 3]]
             (mkTensor 0 [None; Some 299; Some 299; Some 3])]) /\
  exists ns,
    snd (run (convolutional_unit (E := strict) (mkTensor 0 [None; Some 299; Some 299; Some 3])
                (-1) (3, 3) None (Some true) None None) []) = [] ++ ns /\
    (List.length ns <= 4)%nat.
Proof.
  split; [reflexivity |].
  destruct (convolutional_unit_outcome (E := strict)
              (mkTensor 0 [None; Some 299; Some 299; Some 3])
              (-1) (3, 3) None (Some true) None None [])
    as (ns & H1 & _ & H3 & _).
  exists ns. split; assumption.
Defined.

Lemma flows_use_every_node_witness :
  exists ns,
    snd (run (exit_flow (E := strict) (mkTensor 0 [None; Some 19; Some 19; Some 728])) [])
    = [] ++ ns /\
    all_used ns (eq (mkTensor 20 [None; Some 1000])) /\
    feeds ns (mkTensor 0 [None; Some 19; Some 19; Some 728]).
Proof.
  destruct (flows_use_every_node (E := strict)
              (mkTensor 0 [None; Some 19; Some 19; Some 728]) [])
    as (_ & _ & ns & H1 & H2).
  exists ns. split; [exact H1 | exact H2].
Defined.

Lemma model_uses_every_node_witness :
  exists ns,
    snd (run (model (E := strict)) []) = [] ++ ns /\
    all_used ns (eq (mkTensor 137 [None; Some 1000])) /\
    feeds ns (mkTensor 0 [None; Some 299; Some 299; Some 3]).
Proof.
  destruct (model_uses_every_node (E := strict) []) as (ns & H1 & H2).
  exists ns. split; [exact H1 | exact H2].
Defined.

(** Started from a log that holds a normalization, with primitives that
    refuse a second one, the unit raises at its normalization, after the relu
    and the convolution were built. *)
Lemma separable_convolutional_unit_outcome_witness :
  fst (run (separable_convolutional_unit (E := one_normalization)
              (mkTensor 1 [None; Some 19; Some 19; Some 728]) 728 None None)
           [mkNode BatchNormalization [mkTensor 0 [None; Some 19; Some 19; Some 728]]
                   (mkTensor 1 [None; Some 19; Some 19; Some 728])]) =
    inl (ShapeError BatchNormalization [[None; Some 19; Some 19; Some 728]]) /\
  exists ns,
    snd (run (separable_convolutional_unit (E := one_normalization)
                (mkTensor 1 [None; Some 19; Some 19; Some 728]) 728 None None)
             [mkNode BatchNormalization [mkTensor 0 [None; Some 19; Some 19; Some 728]]
                     (mkTensor 1 [None; Some 19; Some 19; Some 728])])
    = [mkNode BatchNormalization [mkTensor 0 [None; Some 19; Some 19; Some 728]]
              (mkTensor 1 [None; Some 19; Some 19; Some 728])] ++ ns /\
    wired 1 (eq (mkTensor 1 [None; Some 19; Some 19; Some 728])) ns /\
    (exists l rest,
        [Activation "relu"; SeparableConv2D 728 (3, 3) (1, 1) "same" false; BatchNormalization]
        = map node_layer ns ++ l :: rest /\
        Some BatchNormalization = Some l) /\
    forall msg,
      ShapeError BatchNormalization [[None; Some 19; Some 19; Some 728]] <> ValueError msg.
Proof.
  split; [reflexivity |].
  destruct (separable_convolutional_unit_outcome (E := one_normalization)
              (mkTensor 1 [None; Some 19; Some 19; Some 728]) 728 None None
              [mkNode BatchNormalization [mkTensor 0 [None; Some 19; Some 19; Some 728]]
                      (mkTensor 1 [None; Some 19; Some 19; Some 728])])
    as (ns & H1 & H2 & H3).
  exists ns. split; [exact H1 |]. split; [exact H2 | exact H3].
Defined.
